(** * Palura parental-account authentication: OTP engine, session engine,
      record store

    A shallow embedding of
      - services/storageService.js  (storageService, parentStorage,
        sessionStorage, otpStorage, analyticsStorage),
      - services/otpService.js      (OTP_CONFIG, generateOTPForEmail,
        validateOTP, getRemainingAttempts, isOTPValid),
      - services/authService.js     (startSignup, completeSignup, getSession,
        refreshSession, signOut),
      - services/parentProfileService.js (updateParentProfile),
      - utils/emailValidation.js    (validateEmail),
    followed by the properties of the authentication layer.

    Modelling conventions.
      - Instants are integers (milliseconds since the epoch, the value of
        [Date.now()]).  A timestamp the code keeps as an ISO string
        ([new Date().toISOString()]) is kept as the instant it denotes; the
        code only ever parses it back ([new Date(s)]) and compares instants.
      - One call of an exported function observes one clock reading [now]:
        every [Date.now()] / [new Date()] inside the call reads [now].
      - [Math.random()] is not a function of the state: the digits it
        contributes are an explicit argument of the function that draws them.
      - Strings are ASCII strings; [toLowerCase] acts on the letters A-Z.
        E-mail addresses that pass [validateEmail] are ASCII; a property of
        parent names, which the code does not restrict, carries the
        hypothesis [isASCII].
      - [AsyncStorage] holds, per key, the JSON text of a value.  The model
        keeps the value itself ([JSON.parse (JSON.stringify v) = v] for the
        plain records stored here) and a schedule of faults telling which of
        the next native calls reject.
      - Keys of the stored objects are not names of [Object.prototype]
        members (they are e-mail addresses and generated tokens); a
        property of a lookup under an arbitrary token carries the
        hypothesis [JsObject.plainKey]. *)

From Stdlib Require Import ZArith Ascii String DecimalString.
From Stdlib Require DecimalFacts DecimalPos DecimalZ.
From stdpp Require Import base option list gmap strings.

Local Open Scope string_scope.
Local Open Scope list_scope.
Local Open Scope Z_scope.

(* ================================================================== *)
(** ** Strings and numbers as JavaScript prints them *)

Definition lower_ascii (c : ascii) : ascii :=
  let n := nat_of_ascii c in
  if ((65 <=? n) && (n <=? 90))%nat then ascii_of_nat (n + 32) else c.

(** [String.prototype.toLowerCase] *)
Fixpoint toLowerCase (s : string) : string :=
  match s with
  | EmptyString => EmptyString
  | String c r => String (lower_ascii c) (toLowerCase r)
  end.

(** JavaScript truthiness of the values the code tests with [!x]. *)
Definition truthy_string (s : string) : bool := negb (String.eqb s "").

Definition truthy_opt_string (o : option string) : bool :=
  match o with Some s => truthy_string s | None => false end.

Definition truthy_opt_number (o : option Z) : bool :=
  match o with Some n => negb (n =? 0) | None => false end.

(** [`${n}`] for an integer [n]: its decimal digits. *)
Definition decimal (n : Z) : string := NilZero.string_of_int (Z.to_int n).

Definition digit36 (d : Z) : ascii :=
  if d <? 10 then ascii_of_nat (Z.to_nat (48 + d))
  else ascii_of_nat (Z.to_nat (97 + (d - 10))).

Fixpoint toString36_digits (fuel : nat) (n : Z) (acc : string) : string :=
  match fuel with
  | O => acc
  | S fuel' =>
      let acc' := String (digit36 (n mod 36)) acc in
      if n <? 36 then acc' else toString36_digits fuel' (n / 36) acc'
  end.

(** [n.toString(36)] for a non-negative integer [n]. *)
Definition toString36 (n : Z) : string :=
  toString36_digits (S (Z.to_nat (Z.log2 n))) n "".

(** [ToInt32]: what [x & x] and [x << k] make of an integer. *)
Definition toInt32 (x : Z) : Z := (x + 2 ^ 31) mod 2 ^ 32 - 2 ^ 31.

(* ================================================================== *)
(** ** Stored records *)

(** An entry of [OTPData.attempts]. *)
Module Attempt.
Record t : Type := mk {
  otp : string;
  timestamp : Z;
  success : bool;
  reason : option string
}.
End Attempt.

(** A value of the [otp_data] object, keyed by lower-case e-mail. *)
Module OTPData.
Record t : Type := mk {
  email : string;
  attempts : list Attempt.t;
  currentOTP : option string;
  otpGeneratedAt : option Z
}.
End OTPData.

(** A value of the [parents] object.  [name] and [skippedProfileSetup] are
    the profile fields [updateParentProfile] is called with; [None] is a
    field the object does not have. *)
Module Parent.
Record t : Type := mk {
  email : string;
  createdAt : Z;
  updatedAt : Z;
  name : option string;
  skippedProfileSetup : option bool
}.
End Parent.

(** A value of the [sessions] object, keyed by access token. *)
Module Session.
Record t : Type := mk {
  accessToken : string;
  refreshToken : string;
  parentEmail : string;
  deviceFingerprint : string;
  createdAt : Z;
  expiresAt : Z;
  updatedAt : option Z
}.
End Session.

(** An entry of the [analytics] array. *)
Module Event.
Record t : Type := mk {
  event : string;
  email : option string;
  parentEmail : option string;
  reason : option string;
  timestamp : option Z
}.

(** [{ ...event, timestamp }] *)
Definition stamp (e : t) (now : Z) : t :=
  mk (event e) (email e) (parentEmail e) (reason e) (Some now).
End Event.

(* ================================================================== *)
(** ** A JavaScript object whose property order is observed

    [refreshSession] walks [Object.values(allSessions)], so the [sessions]
    object keeps its properties in insertion order (its keys are access
    tokens, never array indices). *)

Module JsObject.
Section Ops.
Context {V : Type}.

Definition t : Type := list (string * V).

(** [o[k]], for a key [k] that is not the name of a member every object
    inherits (see [inherited] below): the own property of that name, [None]
    for [undefined]. *)
Fixpoint get (k : string) (o : t) : option V :=
  match o with
  | [] => None
  | (k', v) :: o' => if String.eqb k k' then Some v else get k o'
  end.

(** [o[k] = v]: an existing property keeps its place. *)
Fixpoint set (k : string) (v : V) (o : t) : t :=
  match o with
  | [] => [(k, v)]
  | (k', v') :: o' =>
      if String.eqb k k' then (k, v) :: o' else (k', v') :: set k v o'
  end.

(** [delete o[k]] *)
Fixpoint remove (k : string) (o : t) : t :=
  match o with
  | [] => []
  | (k', v') :: o' =>
      if String.eqb k k' then remove k o' else (k', v') :: remove k o'
  end.

(** [Object.values(o)] *)
Definition values (o : t) : list V := map snd o.

Definition keys (o : t) : list string := map fst o.
End Ops.
Arguments t : clear implicits.

(** The names of the members a plain object inherits from
    [Object.prototype].  Under such a name [o[k]] is never [undefined]:
    where the object has no own property it is the inherited member. *)
Definition inherited : list string :=
  [ "constructor"; "hasOwnProperty"; "isPrototypeOf"; "propertyIsEnumerable";
    "toLocaleString"; "toString"; "valueOf"; "__proto__";
    "__defineGetter__"; "__defineSetter__"; "__lookupGetter__";
    "__lookupSetter__" ].

(** A key under which an object holds own properties only. *)
Definition plainKey (k : string) : bool :=
  negb (existsb (String.eqb k) inherited).
End JsObject.

(** [Array.prototype.find] *)
Definition Array_find {A : Type} (p : A -> bool) (l : list A) : option A :=
  List.find p l.

(* ================================================================== *)
(** ** AsyncStorage: the persistent medium *)

Module AsyncStorage.
Record t : Type := mk {
  parents : option (gmap string Parent.t);
  sessions : option (JsObject.t Session.t);
  otp_data : option (gmap string OTPData.t);
  analytics : option (list Event.t);
  (** [true]: the next native call rejects; an exhausted schedule means
      that no later call rejects. *)
  faults : list bool
}.

Definition empty : t := mk None None None None [].

Definition with_faults (fs : list bool) (st : t) : t :=
  mk (parents st) (sessions st) (otp_data st) (analytics st) fs.
End AsyncStorage.

(** An [async] computation over the medium; [await] is its bind. *)
Definition Async (A : Type) : Type := AsyncStorage.t -> A * AsyncStorage.t.

Definition ret {A : Type} (a : A) : Async A := fun st => (a, st).

Definition bind {A B : Type} (m : Async A) (f : A -> Async B) : Async B :=
  fun st => let (a, st') := m st in f a st'.

Notation "'await' x <- m ; k" := (bind m (fun x => k))
  (at level 10, x binder, m at level 100, k at level 200,
   format "'[v' 'await'  x  <-  m ; '/' k ']'").

(** What a native promise settles to. *)
Inductive Settled (A : Type) : Type :=
  | Resolved (a : A)
  | Rejected.
Arguments Resolved {A} a.
Arguments Rejected {A}.

(** A typed storage key: where its value lives in the medium. *)
Record Key (V : Type) : Type := mkKey {
  read : AsyncStorage.t -> option V;
  write : option V -> AsyncStorage.t -> AsyncStorage.t
}.
Arguments read {V} _ _.
Arguments write {V} _ _ _.

Module STORAGE_KEYS.
Import AsyncStorage.
Definition PARENTS : Key (gmap string Parent.t) :=
  mkKey _ parents
    (fun v st => mk v (sessions st) (otp_data st) (analytics st) (faults st)).
Definition SESSIONS : Key (JsObject.t Session.t) :=
  mkKey _ sessions
    (fun v st => mk (parents st) v (otp_data st) (analytics st) (faults st)).
Definition OTP_DATA : Key (gmap string OTPData.t) :=
  mkKey _ otp_data
    (fun v st => mk (parents st) (sessions st) v (analytics st) (faults st)).
Definition ANALYTICS : Key (list Event.t) :=
  mkKey _ analytics
    (fun v st => mk (parents st) (sessions st) (otp_data st) v (faults st)).
End STORAGE_KEYS.

Module Native.
(** Consumes the next entry of the fault schedule. *)
Definition next_fault : Async bool := fun st =>
  match AsyncStorage.faults st with
  | [] => (false, st)
  | f :: fs => (f, AsyncStorage.with_faults fs st)
  end.

(** [AsyncStorage.getItem(key)] *)
Definition getItem {V : Type} (key : Key V) : Async (Settled (option V)) :=
  await fault <- next_fault;
  if fault : bool then ret Rejected
  else fun st => (Resolved (read key st), st).

(** [AsyncStorage.setItem(key, JSON.stringify(value))] *)
Definition setItem {V : Type} (key : Key V) (value : V) : Async (Settled unit) :=
  await fault <- next_fault;
  if fault : bool then ret Rejected
  else fun st => (Resolved tt, write key (Some value) st).

(** [AsyncStorage.removeItem(key)] *)
Definition removeItem {V : Type} (key : Key V) : Async (Settled unit) :=
  await fault <- next_fault;
  if fault : bool then ret Rejected
  else fun st => (Resolved tt, write key None st).
End Native.

(** [storageService]: each operation wraps the native call in
    [try { ... } catch (error) { console.error(...); return ... }]. *)
Module storageService.
Definition getItem {V : Type} (key : Key V) : Async (option V) :=
  await value <- Native.getItem key;
  match value with
  | Resolved value => ret value
  | Rejected => ret None
  end.

Definition setItem {V : Type} (key : Key V) (value : V) : Async bool :=
  await r <- Native.setItem key value;
  match r with
  | Resolved _ => ret true
  | Rejected => ret false
  end.

Definition removeItem {V : Type} (key : Key V) : Async bool :=
  await r <- Native.removeItem key;
  match r with
  | Resolved _ => ret true
  | Rejected => ret false
  end.
End storageService.

Module parentStorage.
Definition getAll : Async (gmap string Parent.t) :=
  await parents <- storageService.getItem STORAGE_KEYS.PARENTS;
  ret (default ∅ parents).

Definition getByEmail (email : string) : Async (option Parent.t) :=
  await parents <- getAll;
  ret (parents !! toLowerCase email).

Definition save (parent : Parent.t) : Async bool :=
  await parents <- getAll;
  storageService.setItem STORAGE_KEYS.PARENTS
    (<[toLowerCase (Parent.email parent) := parent]> parents).

Definition delete (email : string) : Async bool :=
  await parents <- getAll;
  storageService.setItem STORAGE_KEYS.PARENTS
    (base.delete (toLowerCase email) parents).
End parentStorage.

Module sessionStorage.
Definition getAll : Async (JsObject.t Session.t) :=
  await sessions <- storageService.getItem STORAGE_KEYS.SESSIONS;
  ret (default [] sessions).

Definition getByToken (accessToken : string) : Async (option Session.t) :=
  await sessions <- getAll;
  ret (JsObject.get accessToken sessions).

Definition save (session : Session.t) : Async bool :=
  await sessions <- getAll;
  storageService.setItem STORAGE_KEYS.SESSIONS
    (JsObject.set (Session.accessToken session) session sessions).

Definition delete (accessToken : string) : Async bool :=
  await sessions <- getAll;
  storageService.setItem STORAGE_KEYS.SESSIONS
    (JsObject.remove accessToken sessions).

Definition getByDeviceFingerprint (fingerprint : string)
  : Async (option Session.t) :=
  await sessions <- getAll;
  ret (Array_find
         (fun s => String.eqb (Session.deviceFingerprint s) fingerprint)
         (JsObject.values sessions)).
End sessionStorage.

Module otpStorage.
Definition getAll : Async (gmap string OTPData.t) :=
  await otpData <- storageService.getItem STORAGE_KEYS.OTP_DATA;
  ret (default ∅ otpData).

Definition getByEmail (email : string) : Async (option OTPData.t) :=
  await otpData <- getAll;
  ret (otpData !! toLowerCase email).

Definition save (email : string) (data : OTPData.t) : Async bool :=
  await otpData <- getAll;
  storageService.setItem STORAGE_KEYS.OTP_DATA
    (<[toLowerCase email := data]> otpData).

Definition delete (email : string) : Async bool :=
  await otpData <- getAll;
  storageService.setItem STORAGE_KEYS.OTP_DATA
    (base.delete (toLowerCase email) otpData).
End otpStorage.

Module analyticsStorage.
Definition getAll : Async (list Event.t) :=
  await events <- storageService.getItem STORAGE_KEYS.ANALYTICS;
  ret (default [] events).

Definition addEvent (now : Z) (event : Event.t) : Async bool :=
  await events <- getAll;
  storageService.setItem STORAGE_KEYS.ANALYTICS
    (events ++ [Event.stamp event now]).
End analyticsStorage.

(* ================================================================== *)
(** ** otpService *)

Module OTP_CONFIG.
Definition LENGTH : Z := 6.
Definition VALIDITY_MS : Z := 10 * 60 * 1000.
Definition MAX_ATTEMPTS : Z := 5.
Definition ATTEMPT_WINDOW_MS : Z := 60 * 60 * 1000.
End OTP_CONFIG.

(** [Number(x)] of a nullable number: [null] counts as 0 in arithmetic. *)
Definition to_number (o : option Z) : Z := default 0 o.

(** [a === b] for a nullable string and a string. *)
Definition strict_eq (a : option string) (b : string) : bool :=
  match a with Some a => String.eqb a b | None => false end.

(** [Math.floor(100000 + Math.random() * 900000).toString()], where
    [draw = Math.floor(Math.random() * 900000)], so [0 <= draw < 900000]. *)
Definition generateOTP (draw : Z) : string := decimal (100000 + draw).

Definition getOTPData (email : string) : Async OTPData.t :=
  await data <- otpStorage.getByEmail email;
  ret (match data with
       | Some data => data
       | None => OTPData.mk (toLowerCase email) [] None None
       end).

Definition cleanOldAttempts (now : Z) (attempts : list Attempt.t)
  : list Attempt.t :=
  List.filter
    (fun attempt => now - Attempt.timestamp attempt <? OTP_CONFIG.ATTEMPT_WINDOW_MS)
    attempts.

Definition hasExceededMaxAttempts (now : Z) (attempts : list Attempt.t) : bool :=
  let recentAttempts := cleanOldAttempts now attempts in
  Z.of_nat (length recentAttempts) >=? OTP_CONFIG.MAX_ATTEMPTS.

(** The result object of [generateOTPForEmail]. *)
Module OtpResult.
Record t : Type := mk {
  success : bool;
  error : option string;
  otp : option string;
  expiresAt : option Z
}.
End OtpResult.

Definition generateOTPForEmail (now draw : Z) (email : string)
  : Async OtpResult.t :=
  await data <- getOTPData email;
  if hasExceededMaxAttempts now (OTPData.attempts data) then
    ret (OtpResult.mk false
           (Some "Too many attempts. Please try again later.") None None)
  else
    let otp := generateOTP draw in
    let data := OTPData.mk (OTPData.email data) (OTPData.attempts data)
                  (Some otp) (Some now) in
    await _ <- otpStorage.save email data;
    ret (OtpResult.mk true None (Some otp)
           (Some (now + OTP_CONFIG.VALIDITY_MS))).

(** The result object of [validateOTP]. *)
Module Validation.
Record t : Type := mk {
  valid : bool;
  error : option string
}.
End Validation.

Definition validateOTP (now : Z) (email inputOTP : string)
  : Async Validation.t :=
  await data <- getOTPData email;
  if negb (truthy_opt_string (OTPData.currentOTP data))
     || negb (truthy_opt_number (OTPData.otpGeneratedAt data))
  then
    ret (Validation.mk false (Some "No OTP found. Please request a new one."))
  else
    let isExpired :=
      now - to_number (OTPData.otpGeneratedAt data) >? OTP_CONFIG.VALIDITY_MS in
    if isExpired then
      let data :=
        OTPData.mk (OTPData.email data)
          (OTPData.attempts data
             ++ [Attempt.mk inputOTP now false (Some "expired")])
          (OTPData.currentOTP data) (OTPData.otpGeneratedAt data) in
      await _ <- otpStorage.save email data;
      ret (Validation.mk false (Some "Code expired"))
    else if hasExceededMaxAttempts now (OTPData.attempts data) then
      ret (Validation.mk false (Some "Too many attempts"))
    else
      let isValid := strict_eq (OTPData.currentOTP data) inputOTP in
      let attempts :=
        OTPData.attempts data
          ++ [Attempt.mk inputOTP now isValid
                (if isValid then None else Some "invalid")] in
      let data :=
        if isValid
        then OTPData.mk (OTPData.email data) attempts None None
        else OTPData.mk (OTPData.email data) attempts
               (OTPData.currentOTP data) (OTPData.otpGeneratedAt data) in
      await _ <- otpStorage.save email data;
      if negb isValid then
        let recentAttempts := cleanOldAttempts now (OTPData.attempts data) in
        if Z.of_nat (length recentAttempts) >=? OTP_CONFIG.MAX_ATTEMPTS then
          ret (Validation.mk false (Some "Too many attempts"))
        else
          ret (Validation.mk false (Some "Invalid code"))
      else
        ret (Validation.mk true None).

Definition getRemainingAttempts (now : Z) (email : string) : Async Z :=
  await data <- getOTPData email;
  let recentAttempts := cleanOldAttempts now (OTPData.attempts data) in
  ret (Z.max 0 (OTP_CONFIG.MAX_ATTEMPTS - Z.of_nat (length recentAttempts))).

Definition isOTPValid (now : Z) (email : string) : Async bool :=
  await data <- getOTPData email;
  if negb (truthy_opt_string (OTPData.currentOTP data))
     || negb (truthy_opt_number (OTPData.otpGeneratedAt data))
  then ret false
  else ret (now - to_number (OTPData.otpGeneratedAt data)
              <=? OTP_CONFIG.VALIDITY_MS).

(* ================================================================== *)
(** ** emailValidation *)

Definition DISPOSABLE_DOMAINS : list string :=
  [ "10minutemail.com"; "tempmail.com"; "guerrillamail.com"; "mailinator.com";
    "throwaway.email"; "temp-mail.org"; "getnada.com"; "mohmal.com";
    "fakeinbox.com"; "trashmail.com"; "maildrop.cc"; "yopmail.com";
    "sharklasers.com"; "grr.la"; "guerrillamailblock.com"; "pokemail.net";
    "spam4.me"; "bccto.me"; "chitthi.in"; "dispostable.com"; "meltmail.com";
    "emailondeck.com"; "spamgourmet.com"; "mytrashmail.com";
    "tempinbox.co.uk"; "mintemail.com"; "melt.li"; "33mail.com";
    "mailcatch.com"; "spambox.us" ].

Definition is_space (c : ascii) : bool :=
  let n := nat_of_ascii c in
  (((9 <=? n) && (n <=? 13)) || (n =? 32))%nat.

Fixpoint trimStart (s : string) : string :=
  match s with
  | EmptyString => EmptyString
  | String c r => if is_space c then trimStart r else s
  end.

Fixpoint trimEnd (s : string) : string :=
  match s with
  | EmptyString => EmptyString
  | String c r =>
      let r' := trimEnd r in
      if is_space c && String.eqb r' "" then "" else String c r'
  end.

(** [String.prototype.trim] *)
Definition trim (s : string) : string := trimEnd (trimStart s).

(** [s.split(sep)] for a one-character separator. *)
Fixpoint split (sep : ascii) (s : string) : list string :=
  match s with
  | EmptyString => [""]
  | String c r =>
      if Ascii.eqb c sep then "" :: split sep r
      else match split sep r with
           | h :: t => String c h :: t
           | [] => [String c ""]
           end
  end.

Definition is_alnum (c : ascii) : bool :=
  let n := nat_of_ascii c in
  (((48 <=? n) && (n <=? 57)) || ((65 <=? n) && (n <=? 90))
   || ((97 <=? n) && (n <=? 122)))%nat.

(** The class [[a-zA-Z0-9.!#$%&'*+/=?^_`{|}~-]]. *)
Definition is_local_char (c : ascii) : bool :=
  is_alnum c
  || existsb (Ascii.eqb c) (list_ascii_of_string ".!#$%&'*+/=?^_`{|}~-").

Definition all_chars (p : ascii -> bool) (s : string) : bool :=
  forallb p (list_ascii_of_string s).

(** A match of [[a-zA-Z0-9](?:[a-zA-Z0-9-]{0,61}[a-zA-Z0-9])?]: one to 63
    characters, letters, digits or hyphens, neither first nor last a
    hyphen. *)
Definition is_label (l : string) : bool :=
  let cs := list_ascii_of_string l in
  ((1 <=? length cs)%nat && (length cs <=? 63)%nat)
  && forallb (fun c => is_alnum c || Ascii.eqb c "-"%char) cs
  && match cs with c :: _ => is_alnum c | [] => false end
  && match rev cs with c :: _ => is_alnum c | [] => false end.

(** [strictEmailRegex.test(s)].  Neither side of the pattern admits ["@"],
    so a match is one non-empty local part, one ["@"], and labels separated
    by dots. *)
Definition strictEmailRegex_test (s : string) : bool :=
  match split "@" s with
  | [loc; domain] =>
      truthy_string loc && all_chars is_local_char loc
      && forallb is_label (split "." domain)
  | _ => false
  end.

Definition isValidEmailFormat (email : string) : bool :=
  if negb (truthy_string email) then false
  else strictEmailRegex_test (trim email).

Definition isDisposableDomain (email : string) : bool :=
  if negb (truthy_string email) then false
  else
    match split "@" (toLowerCase email) with
    | _ :: domain :: _ =>
        if negb (truthy_string domain) then false
        else existsb (String.eqb domain) DISPOSABLE_DOMAINS
    | _ => false
    end.

Definition validateEmail (email : string) : Validation.t :=
  if negb (truthy_string email) || negb (truthy_string (trim email)) then
    Validation.mk false (Some "Email is required")
  else
    let trimmedEmail := toLowerCase (trim email) in
    if negb (isValidEmailFormat trimmedEmail) then
      Validation.mk false (Some "Invalid email format")
    else if isDisposableDomain trimmedEmail then
      Validation.mk false (Some "Disposable email domains are not allowed")
    else Validation.mk true None.

(* ================================================================== *)
(** ** authService *)

(** What the runtime exposes: [navigator.userAgent], the screen size as
    ["WxH"] (["unknown"] where absent), and whether the build is a
    development one. *)
Record Env : Type := mkEnv {
  userAgent : string;
  screenInfo : string;
  isDev : bool
}.

Definition SEVEN_DAYS_MS : Z := 7 * 24 * 60 * 60 * 1000.

Definition generateDeviceFingerprint (env : Env) (now : Z) : string :=
  let str := userAgent env +:+ "_" +:+ screenInfo env +:+ "_" +:+ decimal now in
  let hash :=
    fold_left
      (fun hash char =>
         let hash := toInt32 (Z.shiftl hash 5) - hash
                     + Z.of_nat (nat_of_ascii char) in
         toInt32 (Z.land hash hash))
      (list_ascii_of_string str) 0 in
  "device_" +:+ toString36 (Z.abs hash).

(** [suffixA] and [suffixR] are the two draws
    [Math.random().toString(36).substr(2, 9)]. *)
Definition generateTokens (now : Z) (suffixA suffixR : string)
  : string * string :=
  let accessToken := "access_" +:+ decimal now +:+ "_" +:+ suffixA in
  let refreshToken := "refresh_" +:+ decimal now +:+ "_" +:+ suffixR in
  (accessToken, refreshToken).

(** Returns [{ accessToken, refreshToken, oldRefreshToken }]. *)
Definition rotateRefreshToken (now : Z) (suffixA suffixR : string)
    (oldRefreshToken : string) : string * string * string :=
  let newTokens := generateTokens now suffixA suffixR in
  (newTokens.1, newTokens.2, oldRefreshToken).

(** The result object of [startSignup]. *)
Module SignupStart.
Record t : Type := mk {
  success : bool;
  error : option string;
  expiresAt : option Z;
  otp : option string
}.
End SignupStart.

Definition startSignup (env : Env) (now draw : Z) (email : string)
  : Async SignupStart.t :=
  await _ <- analyticsStorage.addEvent now
               (Event.mk "auth_signup_started" (Some (toLowerCase email))
                  None None None);
  let emailValidation := validateEmail email in
  if negb (Validation.valid emailValidation) then
    await _ <- analyticsStorage.addEvent now
                 (Event.mk "auth_signup_failed" (Some (toLowerCase email))
                    None (Validation.error emailValidation) None);
    ret (SignupStart.mk false (Validation.error emailValidation) None None)
  else
    await existingParent <- parentStorage.getByEmail email;
    await otpResult <- generateOTPForEmail now draw email;
    if negb (OtpResult.success otpResult) then
      await _ <- analyticsStorage.addEvent now
                   (Event.mk "auth_signup_failed" (Some (toLowerCase email))
                      None (OtpResult.error otpResult) None);
      ret (SignupStart.mk false (OtpResult.error otpResult) None None)
    else
      ret (SignupStart.mk true None (OtpResult.expiresAt otpResult)
             (if isDev env && truthy_opt_string (OtpResult.otp otpResult)
              then OtpResult.otp otpResult else None)).

(** The result object of [completeSignup]. *)
Module SignupComplete.
Record t : Type := mk {
  success : bool;
  error : option string;
  session : option Session.t;
  parent : option Parent.t
}.
End SignupComplete.

Definition completeSignup (env : Env) (now : Z) (suffixA suffixR : string)
    (email otp : string) : Async SignupComplete.t :=
  await otpValidation <- validateOTP now email otp;
  if negb (Validation.valid otpValidation) then
    await _ <- analyticsStorage.addEvent now
                 (Event.mk "auth_signup_failed" (Some (toLowerCase email))
                    None (Validation.error otpValidation) None);
    ret (SignupComplete.mk false (Validation.error otpValidation) None None)
  else
    let parent := Parent.mk (toLowerCase email) now now None None in
    await _ <- parentStorage.save parent;
    let deviceFingerprint := generateDeviceFingerprint env now in
    let '(accessToken, refreshToken) := generateTokens now suffixA suffixR in
    let session :=
      Session.mk accessToken refreshToken (toLowerCase email)
        deviceFingerprint now (now + SEVEN_DAYS_MS) None in
    await _ <- sessionStorage.save session;
    await _ <- analyticsStorage.addEvent now
                 (Event.mk "auth_signup_success" (Some (toLowerCase email))
                    None None None);
    ret (SignupComplete.mk true None (Some session) (Some parent)).

Definition getSession (now : Z) (accessToken : string)
  : Async (option Session.t) :=
  if negb (truthy_string accessToken) then ret None
  else
    await session <- sessionStorage.getByToken accessToken;
    match session with
    | None => ret None
    | Some session =>
        if now >? Session.expiresAt session then
          await _ <- sessionStorage.delete accessToken;
          ret None
        else ret (Some session)
    end.

Definition refreshSession (now : Z) (suffixA suffixR : string)
    (refreshToken : string) : Async (option Session.t) :=
  if negb (truthy_string refreshToken) then ret None
  else
    await allSessions <- sessionStorage.getAll;
    let session :=
      Array_find (fun s => String.eqb (Session.refreshToken s) refreshToken)
        (JsObject.values allSessions) in
    match session with
    | None => ret None
    | Some session =>
        let '(newAccessToken, newRefreshToken, _) :=
          rotateRefreshToken now suffixA suffixR refreshToken in
        let updatedSession :=
          Session.mk newAccessToken newRefreshToken
            (Session.parentEmail session) (Session.deviceFingerprint session)
            (Session.createdAt session) (now + SEVEN_DAYS_MS) (Some now) in
        await _ <- sessionStorage.delete (Session.accessToken session);
        await _ <- sessionStorage.save updatedSession;
        ret (Some updatedSession)
    end.

Definition signOut (accessToken : string) : Async bool :=
  if truthy_string accessToken then
    await _ <- sessionStorage.delete accessToken;
    ret true
  else ret true.

Definition getParentFromSession (now : Z) (accessToken : string)
  : Async (option Parent.t) :=
  await session <- getSession now accessToken;
  match session with
  | None => ret None
  | Some session => parentStorage.getByEmail (Session.parentEmail session)
  end.

(* ================================================================== *)
(** ** analyticsService and parentProfileService *)

(** [trackEvent(eventName, { parentEmail })] *)
Definition trackEvent (now : Z) (eventName : string)
    (parentEmail : string) : Async unit :=
  await _ <- analyticsStorage.addEvent now
               (Event.mk eventName None (Some parentEmail) None None);
  ret tt.

Definition MIN_NAME_LENGTH : Z := 2.
Definition MAX_NAME_LENGTH : Z := 50.

(** [validateParentName]: [inl error] or [inr name] with the trimmed name.
    For an ASCII name [String.length] is the code's [.length] and [trim]
    the code's [trim]; the properties of names are stated for these. *)
Definition validateParentName (name : string) : string + string :=
  if negb (truthy_string name) then inl "Name is required"
  else
    let trimmed := trim name in
    if Z.of_nat (String.length trimmed) <? MIN_NAME_LENGTH then
      inl "Name must be at least 2 characters"
    else if Z.of_nat (String.length trimmed) >? MAX_NAME_LENGTH then
      inl "Name must be 50 characters or less"
    else inr trimmed.

(** The [profileData] argument of [updateParentProfile]: the callers pass
    [{ name }] or [{ skippedProfileSetup: true }]. *)
Module ProfileData.
Record t : Type := mk {
  name : option string;
  skippedProfileSetup : option bool
}.
End ProfileData.

(** One field of the spread [{ ...x, ...y }]: [y]'s where [y] has it,
    [x]'s otherwise. *)
Definition spread {A : Type} (x y : option A) : option A :=
  match y with Some _ => y | None => x end.

(** Returns [inl error] or [inr updatedParent]. *)
Definition updateParentProfile (now : Z) (email : string)
    (profileData : ProfileData.t) : Async (string + Parent.t) :=
  let checked :=
    match ProfileData.name profileData with
    | None => inr profileData
    | Some name =>
        match validateParentName name with
        | inl error => inl error
        | inr name =>
            inr (ProfileData.mk (Some name)
                   (ProfileData.skippedProfileSetup profileData))
        end
    end in
  match checked with
  | inl error => ret (inl error)
  | inr profileData =>
      await existingParent <- parentStorage.getByEmail email;
      match existingParent with
      | None => ret (inl "Parent not found")
      | Some existingParent =>
          let updatedParent :=
            Parent.mk (Parent.email existingParent)
              (Parent.createdAt existingParent) now
              (spread (Parent.name existingParent)
                 (ProfileData.name profileData))
              (spread (Parent.skippedProfileSetup existingParent)
                 (ProfileData.skippedProfileSetup profileData)) in
          await _ <- parentStorage.save updatedParent;
          await _ <- trackEvent now "parent_profile_updated"
                       (toLowerCase email);
          ret (inr updatedParent)
      end
  end.

(** [getParent] *)
Definition getParent (email : string) : Async (option Parent.t) :=
  parentStorage.getByEmail email.

(** [isParentProfileComplete(parent)], as the condition it is used for:
    [parent && parent.name && parent.name.trim().length >= MIN_NAME_LENGTH]
    is truthy. *)
Definition isParentProfileComplete (parent : option Parent.t) : bool :=
  match parent with
  | None => false
  | Some parent =>
      match Parent.name parent with
      | None => false
      | Some name =>
          truthy_string name
          && (Z.of_nat (String.length (trim name)) >=? MIN_NAME_LENGTH)
      end
  end.

(** [getAllEvents] and [getEventsByName] of the analytics service. *)
Definition getAllEvents : Async (list Event.t) := analyticsStorage.getAll.

Definition getEventsByName (eventName : string) : Async (list Event.t) :=
  await allEvents <- analyticsStorage.getAll;
  ret (List.filter (fun event => String.eqb (Event.event event) eventName)
         allEvents).

(* ================================================================== *)
(** ** Vocabulary of the properties *)

(** No native call rejects from here on. *)
Definition healthy (st : AsyncStorage.t) : Prop := AsyncStorage.faults st = [].

Definition parentRecords (st : AsyncStorage.t) : gmap string Parent.t :=
  default ∅ (AsyncStorage.parents st).

Definition otpRecords (st : AsyncStorage.t) : gmap string OTPData.t :=
  default ∅ (AsyncStorage.otp_data st).

Definition sessionRecords (st : AsyncStorage.t) : JsObject.t Session.t :=
  default [] (AsyncStorage.sessions st).

(** Whether the next native call rejects, and the medium once that call
    has consumed its entry of the schedule. *)
Definition nextFault (st : AsyncStorage.t) : bool := (Native.next_fault st).1.

Definition afterFault (st : AsyncStorage.t) : AsyncStorage.t :=
  (Native.next_fault st).2.

Definition putSessions (sessions : JsObject.t Session.t)
    (st : AsyncStorage.t) : AsyncStorage.t :=
  write STORAGE_KEYS.SESSIONS (Some sessions) st.

Definition putParents (parents : gmap string Parent.t)
    (st : AsyncStorage.t) : AsyncStorage.t :=
  write STORAGE_KEYS.PARENTS (Some parents) st.

(** The OTP record of an e-mail: the stored one, or the lazily created
    empty one. *)
Definition otpRecord (st : AsyncStorage.t) (email : string) : OTPData.t :=
  default (OTPData.mk (toLowerCase email) [] None None)
    (otpRecords st !! toLowerCase email).

Definition putOtpRecord (email : string) (data : OTPData.t)
    (st : AsyncStorage.t) : AsyncStorage.t :=
  write STORAGE_KEYS.OTP_DATA
    (Some (<[toLowerCase email := data]> (otpRecords st))) st.

(** A record holds a live code when both its code and its generation
    instant pass the code's own test. *)
Definition live (data : OTPData.t) : bool :=
  truthy_opt_string (OTPData.currentOTP data)
  && truthy_opt_number (OTPData.otpGeneratedAt data).

(** Attempts inside the rolling window at instant [now]. *)
Definition recentCount (now : Z) (attempts : list Attempt.t) : Z :=
  Z.of_nat (length (cleanOldAttempts now attempts)).

(** The five verification outcomes, read off the result object. *)
Inductive Outcome : Type := Valid | Expired | Invalid | Throttled | NotFound.

Definition outcome (r : Validation.t) : option Outcome :=
  match Validation.valid r, Validation.error r with
  | true, None => Some Valid
  | false, Some e =>
      if String.eqb e "Code expired" then Some Expired
      else if String.eqb e "Invalid code" then Some Invalid
      else if String.eqb e "Too many attempts" then Some Throttled
      else if String.eqb e "No OTP found. Please request a new one."
      then Some NotFound
      else None
  | _, _ => None
  end.

(** The five ways [validateOTP now email inputOTP] can go from the record
    [data]: its result [r], the medium [st'] it leaves from [st], and the
    attempt it logged. *)
Inductive Verdict (now : Z) (email inputOTP : string) (data : OTPData.t)
    (st : AsyncStorage.t) (r : Validation.t) (st' : AsyncStorage.t) : Prop :=
  | verdict_notFound :
      live data = false ->
      outcome r = Some NotFound -> st' = st ->
      Verdict now email inputOTP data st r st'
  | verdict_expired :
      live data = true ->
      outcome r = Some Expired ->
      OTPData.attempts (otpRecord st' email)
      = OTPData.attempts data
          ++ [Attempt.mk inputOTP now false (Some "expired")] ->
      Verdict now email inputOTP data st r st'
  | verdict_capped :
      live data = true ->
      hasExceededMaxAttempts now (OTPData.attempts data) = true ->
      outcome r = Some Throttled -> st' = st ->
      Verdict now email inputOTP data st r st'
  | verdict_valid :
      live data = true ->
      hasExceededMaxAttempts now (OTPData.attempts data) = false ->
      outcome r = Some Valid ->
      OTPData.attempts (otpRecord st' email)
      = OTPData.attempts data ++ [Attempt.mk inputOTP now true None] ->
      Verdict now email inputOTP data st r st'
  | verdict_invalid :
      live data = true ->
      hasExceededMaxAttempts now (OTPData.attempts data) = false ->
      outcome r
      = Some (if hasExceededMaxAttempts now
                   (OTPData.attempts (otpRecord st' email))
              then Throttled else Invalid) ->
      OTPData.attempts (otpRecord st' email)
      = OTPData.attempts data
          ++ [Attempt.mk inputOTP now false (Some "invalid")] ->
      Verdict now email inputOTP data st r st'.

(** [generateOTPForEmail] answered with its throttling error. *)
Definition throttledError (r : OtpResult.t) : Prop :=
  OtpResult.success r = false
  /\ OtpResult.error r = Some "Too many attempts. Please try again later.".

(** Successive [generateOTPForEmail] calls for one e-mail, each with its
    clock reading and its draw, nothing else touching the store. *)
Fixpoint requestCodes (calls : list (Z * Z)) (email : string)
  : Async (list OtpResult.t) :=
  match calls with
  | [] => ret []
  | (now, draw) :: calls =>
      await r <- generateOTPForEmail now draw email;
      await rs <- requestCodes calls email;
      ret (r :: rs)
  end.

(** Every key of a map is in lower case. *)
Definition lowercaseKeys {V : Type} (m : gmap string V) : Prop :=
  forall k, is_Some (m !! k) -> toLowerCase k = k.

(** The record-store operations that write. *)
Inductive StoreOp : Type :=
  | ParentSave (parent : Parent.t)
  | ParentDelete (email : string)
  | OtpSave (email : string) (data : OTPData.t)
  | OtpDelete (email : string)
  | SessionSave (session : Session.t)
  | SessionDelete (accessToken : string)
  | AddEvent (now : Z) (event : Event.t).

Definition runStoreOp (op : StoreOp) : Async bool :=
  match op with
  | ParentSave parent => parentStorage.save parent
  | ParentDelete email => parentStorage.delete email
  | OtpSave email data => otpStorage.save email data
  | OtpDelete email => otpStorage.delete email
  | SessionSave session => sessionStorage.save session
  | SessionDelete accessToken => sessionStorage.delete accessToken
  | AddEvent now event => analyticsStorage.addEvent now event
  end.

(** The media the application can be in: empty at installation, then
    written through the record stores only, under any schedule of
    faults. *)
Inductive reachable : AsyncStorage.t -> Prop :=
  | reachable_empty (fs : list bool) :
      reachable (AsyncStorage.with_faults fs AsyncStorage.empty)
  | reachable_step (st : AsyncStorage.t) (op : StoreOp) (fs : list bool) :
      reachable st ->
      reachable (AsyncStorage.with_faults fs (runStoreOp op st).2).

(* ================================================================== *)
(** ** Scenarios

    Media obtained by running the services from an empty installation. *)

Module Scenario.
Definition env : Env := mkEnv "node" "unknown" true.

Definition user : string := "user@example.com".

(** A code was requested at instant 1000; the draw makes it "123456". *)
Definition afterRequest : AsyncStorage.t :=
  (generateOTPForEmail 1000 23456 user AsyncStorage.empty).2.

(** Wrong codes submitted at the given instants. *)
Fixpoint wrongCodes (times : list Z) : Async unit :=
  match times with
  | [] => ret tt
  | now :: times =>
      await _ <- validateOTP now user "000000";
      wrongCodes times
  end.

Definition afterFourWrong : AsyncStorage.t :=
  (wrongCodes [2000; 2001; 2002; 2003] afterRequest).2.

Definition afterFiveWrong : AsyncStorage.t :=
  (wrongCodes [2000; 2001; 2002; 2003; 2004] afterRequest).2.

(** The signup is completed at instant 2000 with the right code. *)
Definition signedUp : AsyncStorage.t :=
  (completeSignup env 2000 "k3j9x0aaa" "q7w1z5bbb" user "123456"
     afterRequest).2.

(** The session that signup issued. *)
Definition session : Session.t :=
  Session.mk "access_2000_k3j9x0aaa" "refresh_2000_q7w1z5bbb" user
    (generateDeviceFingerprint env 2000) 2000 (2000 + SEVEN_DAYS_MS) None.

(** The parent then names herself and skips the rest of the setup. *)
Definition withProfile : AsyncStorage.t :=
  (updateParentProfile 3500 user (ProfileData.mk None (Some true))
     (updateParentProfile 3000 user (ProfileData.mk (Some "Ann") None)
        signedUp).2).2.

(** Later she signs up again; the draw makes the new code "165432". *)
Definition resignupRequested : AsyncStorage.t :=
  (startSignup env 5000 65432 "User@Example.com" withProfile).2.
End Scenario.

(* ================================================================== *)
(** ** Further vocabulary *)

Definition is_digit (c : ascii) : bool :=
  let n := nat_of_ascii c in ((48 <=? n) && (n <=? 57))%nat.

(** The polynomial hash of base 31 over the character codes, before any
    reduction to 32 bits. *)
Definition polynomialHash (cs : list ascii) : Z :=
  fold_left (fun h c => 31 * h + Z.of_nat (nat_of_ascii c)) cs 0.

(** A string that does not start with white space. *)
Definition startsClean (s : string) : Prop :=
  match s with
  | EmptyString => True
  | String c _ => is_space c = false
  end.

(** The stored values of the medium, without its schedule of faults. *)
Definition contents (st : AsyncStorage.t)
  : option (gmap string Parent.t) * option (JsObject.t Session.t)
    * option (gmap string OTPData.t) * option (list Event.t) :=
  (AsyncStorage.parents st, AsyncStorage.sessions st,
   AsyncStorage.otp_data st, AsyncStorage.analytics st).

Definition eventLog (st : AsyncStorage.t) : list Event.t :=
  default [] (AsyncStorage.analytics st).

(** A computation that, under any schedule of faults, leaves one part [f]
    of the medium as it found it. *)
Definition preserves {A X : Type} (f : AsyncStorage.t -> X) (m : Async A)
  : Prop :=
  forall st : AsyncStorage.t, f (m st).2 = f st.

(** Every session row sits under its own access token, and no token has two
    rows. *)
Definition sessionsKeyed (o : JsObject.t Session.t) : Prop :=
  Forall (fun row => Session.accessToken row.2 = row.1) o
  /\ NoDup (JsObject.keys o).

(** Every account row sits under the lower-case form of its own e-mail. *)
Definition parentsKeyed (m : gmap string Parent.t) : Prop :=
  forall (k : string) (parent : Parent.t),
    m !! k = Some parent -> toLowerCase (Parent.email parent) = k.

(** The rolling window in the words of the specification: an attempt is in
    window at the instant [now] when [now - attempt.timestamp] is less than
    60 minutes; [attemptsInWindow] counts the entries of a log that are. *)
Definition inWindow (now : Z) (attempt : Attempt.t) : bool :=
  now - Attempt.timestamp attempt <? 60 * 60 * 1000.

Fixpoint attemptsInWindow (now : Z) (attempts : list Attempt.t) : Z :=
  match attempts with
  | [] => 0
  | attempt :: attempts =>
      (if inWindow now attempt then 1 else 0) + attemptsInWindow now attempts
  end.

(** A string of ASCII characters only.  On these [.length] is the number of
    characters, and the white space [trim] removes is the six characters
    [is_space] names. *)
Definition isASCII (s : string) : bool :=
  all_chars (fun c => (nat_of_ascii c <? 128)%nat) s.

Fixpoint lastChar (s : string) : option ascii :=
  match s with
  | EmptyString => None
  | String c EmptyString => Some c
  | String _ r => lastChar r
  end.

(** A string that does not end with white space. *)
Definition endsClean (s : string) : Prop :=
  match lastChar s with
  | Some c => is_space c = false
  | None => True
  end.

(** [core] is [s] without the white space around it: [s] is [core] between
    two runs of white space, and [core] neither starts nor ends with white
    space. *)
Definition stripped (s core : string) : Prop :=
  exists pre post : string,
    s = pre +:+ core +:+ post
    /\ all_chars is_space pre = true
    /\ all_chars is_space post = true
    /\ startsClean core
    /\ endsClean core.

(** The profile carries no name, or an ASCII one. *)
Definition asciiProfile (profile : ProfileData.t) : Prop :=
  match ProfileData.name profile with
  | Some name => isASCII name = true
  | None => True
  end.

(* ================================================================== *)
(** ** Strings *)

Lemma lower_ascii_idempotent (c : ascii) :
  lower_ascii (lower_ascii c) = lower_ascii c.
Proof. destruct c as [[] [] [] [] [] [] [] []]; reflexivity. Qed.

Lemma toLowerCase_idempotent (s : string) :
  toLowerCase (toLowerCase s) = toLowerCase s.
Proof.
  induction s as [|c s IH]; simpl; [reflexivity|].
  now rewrite lower_ascii_idempotent, IH.
Qed.

Lemma truthy_string_spec (s : string) : truthy_string s = true <-> s <> "".
Proof.
  unfold truthy_string. destruct (String.eqb_spec s ""); simpl; split;
    congruence.
Qed.

Lemma decimal_truthy (n : Z) : truthy_string (decimal n) = true.
Proof.
  unfold decimal. destruct (Z.to_int n) as [d|d]; [|reflexivity].
  destruct d; reflexivity.
Qed.

Lemma generateOTP_truthy (draw : Z) :
  truthy_opt_string (Some (generateOTP draw)) = true.
Proof. apply decimal_truthy. Qed.

(* ================================================================== *)
(** ** The rolling window *)

Lemma Zgtb_false (a b : Z) : a <= b -> (a >? b) = false.
Proof. intros H. rewrite Z.gtb_ltb. apply Z.ltb_ge. exact H. Qed.

Lemma cleanOldAttempts_app (now : Z) (l1 l2 : list Attempt.t) :
  cleanOldAttempts now (l1 ++ l2)
  = cleanOldAttempts now l1 ++ cleanOldAttempts now l2.
Proof. apply List.filter_app. Qed.

Lemma recentCount_nonneg (now : Z) (l : list Attempt.t) : 0 <= recentCount now l.
Proof. unfold recentCount. lia. Qed.

(** The window only loses attempts as the clock advances. *)
Lemma recentCount_antitone (now now' : Z) (l : list Attempt.t) :
  now <= now' -> recentCount now' l <= recentCount now l.
Proof.
  intros Hle. unfold recentCount, cleanOldAttempts.
  induction l as [|a l IH]; simpl; [lia|].
  destruct (Z.ltb_spec (now' - Attempt.timestamp a) OTP_CONFIG.ATTEMPT_WINDOW_MS);
    destruct (Z.ltb_spec (now - Attempt.timestamp a) OTP_CONFIG.ATTEMPT_WINDOW_MS);
    simpl in *; lia.
Qed.

(** The count the code takes is the count of the specification. *)
Lemma recentCount_attemptsInWindow (now : Z) (l : list Attempt.t) :
  recentCount now l = attemptsInWindow now l.
Proof.
  unfold recentCount, cleanOldAttempts.
  induction l as [|a l IH]; [reflexivity|].
  cbn [List.filter attemptsInWindow]. unfold inWindow at 1.
  change (60 * 60 * 1000) with OTP_CONFIG.ATTEMPT_WINDOW_MS.
  destruct (now - Attempt.timestamp a <? OTP_CONFIG.ATTEMPT_WINDOW_MS);
    cbn [length]; lia.
Qed.

Lemma hasExceededMaxAttempts_spec (now : Z) (l : list Attempt.t) :
  hasExceededMaxAttempts now l = true <-> 5 <= recentCount now l.
Proof.
  unfold hasExceededMaxAttempts, recentCount, OTP_CONFIG.MAX_ATTEMPTS.
  rewrite Z.geb_le. reflexivity.
Qed.

Lemma hasExceededMaxAttempts_false (now : Z) (l : list Attempt.t) :
  hasExceededMaxAttempts now l = false <-> recentCount now l < 5.
Proof.
  rewrite <- Bool.not_true_iff_false, hasExceededMaxAttempts_spec. lia.
Qed.

(* ================================================================== *)
(** ** The record stores on a healthy medium *)

Section Healthy.
Variable st : AsyncStorage.t.
Hypothesis Hst : healthy st.

Lemma getItem_healthy {V : Type} (key : Key V) :
  storageService.getItem key st = (read key st, st).
Proof.
  unfold storageService.getItem, Native.getItem, Native.next_fault, bind, ret.
  now rewrite Hst.
Qed.

Lemma setItem_healthy {V : Type} (key : Key V) (value : V) :
  storageService.setItem key value st = (true, write key (Some value) st).
Proof.
  unfold storageService.setItem, Native.setItem, Native.next_fault, bind, ret.
  now rewrite Hst.
Qed.

Lemma otpStorage_getByEmail_healthy (email : string) :
  otpStorage.getByEmail email st = (otpRecords st !! toLowerCase email, st).
Proof.
  unfold otpStorage.getByEmail, otpStorage.getAll, bind, ret.
  now rewrite getItem_healthy.
Qed.

Lemma getOTPData_healthy (email : string) :
  getOTPData email st = (otpRecord st email, st).
Proof.
  unfold getOTPData, bind, ret, otpRecord.
  rewrite otpStorage_getByEmail_healthy.
  now destruct (otpRecords st !! toLowerCase email).
Qed.

Lemma otpStorage_save_healthy (email : string) (data : OTPData.t) :
  otpStorage.save email data st = (true, putOtpRecord email data st).
Proof.
  unfold otpStorage.save, otpStorage.getAll, bind, ret.
  now rewrite getItem_healthy, setItem_healthy.
Qed.

Lemma putOtpRecord_healthy (email : string) (data : OTPData.t) :
  healthy (putOtpRecord email data st).
Proof. exact Hst. Qed.

Lemma otpRecord_put (email : string) (data : OTPData.t) :
  otpRecord (putOtpRecord email data st) email = data.
Proof.
  unfold otpRecord, putOtpRecord, otpRecords. simpl.
  now rewrite lookup_insert_eq.
Qed.
End Healthy.

(* ================================================================== *)
(** ** The OTP engine on a healthy medium *)

Section OtpEngine.
Variable st : AsyncStorage.t.
Hypothesis Hst : healthy st.
Variables (now : Z) (email : string).

Let data := otpRecord st email.

Lemma generateOTPForEmail_throttled (draw : Z) :
  hasExceededMaxAttempts now (OTPData.attempts data) = true ->
  generateOTPForEmail now draw email st
  = (OtpResult.mk false
       (Some "Too many attempts. Please try again later.") None None, st).
Proof.
  intros Hcap. unfold generateOTPForEmail, bind.
  rewrite (getOTPData_healthy st Hst). fold data. now rewrite Hcap.
Qed.

Lemma generateOTPForEmail_issued (draw : Z) :
  hasExceededMaxAttempts now (OTPData.attempts data) = false ->
  generateOTPForEmail now draw email st
  = (OtpResult.mk true None (Some (generateOTP draw))
       (Some (now + OTP_CONFIG.VALIDITY_MS)),
     putOtpRecord email
       (OTPData.mk (OTPData.email data) (OTPData.attempts data)
          (Some (generateOTP draw)) (Some now)) st).
Proof.
  intros Hcap. unfold generateOTPForEmail, bind.
  rewrite (getOTPData_healthy st Hst). fold data. rewrite Hcap.
  now rewrite (otpStorage_save_healthy st Hst).
Qed.

Variable inputOTP : string.

Lemma validateOTP_notFound :
  live data = false ->
  validateOTP now email inputOTP st
  = (Validation.mk false (Some "No OTP found. Please request a new one."),
     st).
Proof.
  intros Hlive. unfold validateOTP, bind.
  rewrite (getOTPData_healthy st Hst). fold data.
  unfold live in Hlive. rewrite <- Bool.negb_andb, Hlive. reflexivity.
Qed.

Lemma validateOTP_expired :
  live data = true ->
  now - to_number (OTPData.otpGeneratedAt data) > OTP_CONFIG.VALIDITY_MS ->
  validateOTP now email inputOTP st
  = (Validation.mk false (Some "Code expired"),
     putOtpRecord email
       (OTPData.mk (OTPData.email data)
          (OTPData.attempts data
             ++ [Attempt.mk inputOTP now false (Some "expired")])
          (OTPData.currentOTP data) (OTPData.otpGeneratedAt data)) st).
Proof.
  intros Hlive Hexp. unfold validateOTP, bind.
  rewrite (getOTPData_healthy st Hst). fold data.
  unfold live in Hlive. rewrite <- Bool.negb_andb, Hlive. cbn [negb]. cbv beta iota zeta.
  apply Z.gtb_gt in Hexp. rewrite Hexp. cbv beta iota zeta. unfold bind.
  now rewrite (otpStorage_save_healthy st Hst).
Qed.

Lemma validateOTP_throttled :
  live data = true ->
  now - to_number (OTPData.otpGeneratedAt data) <= OTP_CONFIG.VALIDITY_MS ->
  hasExceededMaxAttempts now (OTPData.attempts data) = true ->
  validateOTP now email inputOTP st
  = (Validation.mk false (Some "Too many attempts"), st).
Proof.
  intros Hlive Hexp Hcap. unfold validateOTP, bind.
  rewrite (getOTPData_healthy st Hst). fold data.
  unfold live in Hlive. rewrite <- Bool.negb_andb, Hlive. cbn [negb]. cbv beta iota zeta.
  rewrite (Zgtb_false _ _ Hexp).
  now rewrite Hcap.
Qed.

Lemma validateOTP_match :
  live data = true ->
  now - to_number (OTPData.otpGeneratedAt data) <= OTP_CONFIG.VALIDITY_MS ->
  hasExceededMaxAttempts now (OTPData.attempts data) = false ->
  strict_eq (OTPData.currentOTP data) inputOTP = true ->
  validateOTP now email inputOTP st
  = (Validation.mk true None,
     putOtpRecord email
       (OTPData.mk (OTPData.email data)
          (OTPData.attempts data ++ [Attempt.mk inputOTP now true None])
          None None) st).
Proof.
  intros Hlive Hexp Hcap Heq. unfold validateOTP, bind.
  rewrite (getOTPData_healthy st Hst). fold data.
  unfold live in Hlive. rewrite <- Bool.negb_andb, Hlive. cbn [negb]. cbv beta iota zeta.
  rewrite (Zgtb_false _ _ Hexp).
  rewrite Hcap, Heq. cbn [negb]. cbv beta iota zeta. unfold bind.
  now rewrite (otpStorage_save_healthy st Hst).
Qed.

Lemma validateOTP_mismatch :
  live data = true ->
  now - to_number (OTPData.otpGeneratedAt data) <= OTP_CONFIG.VALIDITY_MS ->
  hasExceededMaxAttempts now (OTPData.attempts data) = false ->
  strict_eq (OTPData.currentOTP data) inputOTP = false ->
  let attempts :=
    OTPData.attempts data
      ++ [Attempt.mk inputOTP now false (Some "invalid")] in
  validateOTP now email inputOTP st
  = (Validation.mk false
       (Some (if hasExceededMaxAttempts now attempts
              then "Too many attempts" else "Invalid code")),
     putOtpRecord email
       (OTPData.mk (OTPData.email data) attempts
          (OTPData.currentOTP data) (OTPData.otpGeneratedAt data)) st).
Proof.
  intros Hlive Hexp Hcap Heq attempts. unfold validateOTP, bind.
  rewrite (getOTPData_healthy st Hst). fold data.
  unfold live in Hlive. rewrite <- Bool.negb_andb, Hlive. cbn [negb]. cbv beta iota zeta.
  rewrite (Zgtb_false _ _ Hexp).
  rewrite Hcap, Heq. cbn [negb]. cbv beta iota zeta. unfold bind.
  rewrite (otpStorage_save_healthy st Hst). cbn [negb]. cbv beta iota zeta.
  fold attempts. simpl OTPData.attempts.
  unfold hasExceededMaxAttempts.
  now destruct (_ >=? _).
Qed.
End OtpEngine.

(* ================================================================== *)
(** ** Verification outcomes and the attempt log *)

Lemma validateOTP_verdict (st : AsyncStorage.t) (now : Z)
    (email inputOTP : string) :
  healthy st ->
  Verdict now email inputOTP (otpRecord st email) st
    (validateOTP now email inputOTP st).1 (validateOTP now email inputOTP st).2.
Proof.
  intros Hst. set (data := otpRecord st email).
  destruct (live data) eqn:Hlive.
  2: { apply verdict_notFound; [assumption| |];
       now rewrite (validateOTP_notFound st Hst now email inputOTP Hlive). }
  destruct (Z_gt_le_dec (now - to_number (OTPData.otpGeneratedAt data))
              OTP_CONFIG.VALIDITY_MS) as [Hexp|Hexp].
  { apply verdict_expired; [assumption| |];
      rewrite (validateOTP_expired st Hst now email inputOTP Hlive Hexp);
      [reflexivity|].
    simpl. now rewrite (otpRecord_put st). }
  destruct (hasExceededMaxAttempts now (OTPData.attempts data)) eqn:Hcap.
  { apply verdict_capped; [assumption|assumption| |];
      now rewrite (validateOTP_throttled st Hst now email inputOTP
                     Hlive Hexp Hcap). }
  destruct (strict_eq (OTPData.currentOTP data) inputOTP) eqn:Heq.
  { apply verdict_valid; [assumption|assumption| |];
      rewrite (validateOTP_match st Hst now email inputOTP
                 Hlive Hexp Hcap Heq); [reflexivity|].
    simpl. now rewrite (otpRecord_put st). }
  apply verdict_invalid; [assumption|assumption| |];
    rewrite (validateOTP_mismatch st Hst now email inputOTP
               Hlive Hexp Hcap Heq);
    simpl; rewrite (otpRecord_put st); simpl; [|reflexivity].
  destruct (hasExceededMaxAttempts now (_ ++ _)); reflexivity.
Qed.

(** C2 (as stated, refuted): after five wrong codes the cap is met; the next
    call, with the right code, is answered Throttled and appends nothing to
    the record: the medium is left as it was. *)
Lemma throttled_call_logs_nothing :
  let before := Scenario.afterFiveWrong in
  let call := validateOTP 2005 Scenario.user "123456" before in
  outcome call.1 = Some Throttled
  /\ call.2 = before
  /\ forall a : Attempt.t,
       OTPData.attempts (otpRecord call.2 Scenario.user)
       <> OTPData.attempts (otpRecord before Scenario.user) ++ [a].
Proof.
  cbv zeta. split; [vm_compute; reflexivity|].
  assert (H : (validateOTP 2005 Scenario.user "123456"
                 Scenario.afterFiveWrong).2 = Scenario.afterFiveWrong)
    by (vm_compute; reflexivity).
  split; [exact H|]. rewrite H. intros a Heq.
  apply (f_equal (@length _)) in Heq. rewrite length_app in Heq.
  simpl in Heq. lia.
Qed.

(** C2 (amended): [validateOTP] appends the attempt
    [{submitted, now, success, reason}] for the outcomes Valid, Invalid and
    Expired and for the Throttled answer of the re-check that follows a
    wrong code; when the cap is already met before the call (Throttled from
    the check that precedes the comparison) it appends and writes nothing,
    as for NotFound. *)
Theorem validateOTP_attempt_log (st : AsyncStorage.t) (now : Z)
    (email inputOTP : string) :
  healthy st ->
  let data := otpRecord st email in
  let r := (validateOTP now email inputOTP st).1 in
  let st' := (validateOTP now email inputOTP st).2 in
  let logged (success : bool) (reason : option string) :=
    OTPData.attempts (otpRecord st' email)
    = OTPData.attempts data ++ [Attempt.mk inputOTP now success reason] in
  match outcome r with
  | Some NotFound => st' = st
  | Some Throttled =>
      if hasExceededMaxAttempts now (OTPData.attempts data)
      then st' = st
      else logged false (Some "invalid")
  | Some Expired => logged false (Some "expired")
  | Some Invalid => logged false (Some "invalid")
  | Some Valid => logged true None
  | None => False
  end.
Proof.
  intros Hst. cbv zeta.
  destruct (validateOTP_verdict st now email inputOTP Hst)
    as [_ Ho Hs|_ Ho Hl|_ Hcap Ho Hs|_ Hcap Ho Hl|_ Hcap Ho Hl];
    rewrite Ho; try assumption.
  - now rewrite Hcap.
  - destruct (hasExceededMaxAttempts now
                (OTPData.attempts (otpRecord (validateOTP _ _ _ _).2 _)));
      [rewrite Hcap|]; exact Hl.
Qed.

(** A fifth wrong code, answered Throttled by the re-check, is logged. *)
Lemma validateOTP_attempt_log_witness :
  OTPData.attempts
    (otpRecord (validateOTP 2004 Scenario.user "000000"
                  Scenario.afterFourWrong).2 Scenario.user)
  = OTPData.attempts (otpRecord Scenario.afterFourWrong Scenario.user)
      ++ [Attempt.mk "000000" 2004 false (Some "invalid")].
Proof.
  exact (validateOTP_attempt_log Scenario.afterFourWrong 2004 Scenario.user
           "000000" eq_refl).
Defined.

(** C3 (as stated, refuted): with four failed attempts in the window, a
    fifth call made after the code expired logs its attempt with reason
    "expired", which meets the cap of five, and is still answered Expired,
    not Throttled. *)
Lemma expired_attempt_meeting_cap_is_not_throttled :
  let before := Scenario.afterFourWrong in
  let call := validateOTP 601001 Scenario.user "000000" before in
  OTPData.attempts (otpRecord call.2 Scenario.user)
  = OTPData.attempts (otpRecord before Scenario.user)
      ++ [Attempt.mk "000000" 601001 false (Some "expired")]
  /\ recentCount 601001 (OTPData.attempts (otpRecord call.2 Scenario.user)) = 5
  /\ outcome call.1 = Some Expired
  /\ outcome call.1 <> Some Throttled.
Proof. cbv zeta. repeat split; vm_compute; congruence. Qed.

(** C3 (amended): a failing call whose logged attempt has reason "invalid"
    re-checks the rolling-window count on the log that now holds the
    attempt, and answers Throttled when five or more attempts are in the
    window and Invalid otherwise, the logged reason staying "invalid"; a
    failing call whose logged attempt has reason "expired" answers Expired
    whatever the count. *)
Theorem validateOTP_failing_attempt (st : AsyncStorage.t) (now : Z)
    (email inputOTP : string) (a : Attempt.t) :
  healthy st ->
  let r := (validateOTP now email inputOTP st).1 in
  let st' := (validateOTP now email inputOTP st).2 in
  OTPData.attempts (otpRecord st' email)
  = OTPData.attempts (otpRecord st email) ++ [a] ->
  Attempt.success a = false ->
  (a = Attempt.mk inputOTP now false (Some "invalid")
   /\ outcome r
      = Some (if 5 <=? recentCount now (OTPData.attempts (otpRecord st' email))
              then Throttled else Invalid))
  \/ (a = Attempt.mk inputOTP now false (Some "expired")
      /\ outcome r = Some Expired).
Proof.
  intros Hst. cbv zeta. intros Hlog Hfail.
  assert (Hstuck : forall l : list Attempt.t, l <> l ++ [a]).
  { intros l Heq. apply (f_equal (@length _)) in Heq.
    rewrite length_app in Heq. simpl in Heq. lia. }
  destruct (validateOTP_verdict st now email inputOTP Hst)
    as [_ Ho Hs|_ Ho Hl|_ Hcap Ho Hs|_ Hcap Ho Hl|_ Hcap Ho Hl].
  - rewrite Hs in Hlog. now apply Hstuck in Hlog.
  - rewrite Hl in Hlog. apply app_inj_tail in Hlog as [_ <-]. now right.
  - rewrite Hs in Hlog. now apply Hstuck in Hlog.
  - rewrite Hl in Hlog. apply app_inj_tail in Hlog as [_ <-]. discriminate.
  - left. rewrite Hl in Hlog. apply app_inj_tail in Hlog as [_ <-].
    split; [reflexivity|]. rewrite Ho. f_equal.
    unfold hasExceededMaxAttempts, recentCount, OTP_CONFIG.MAX_ATTEMPTS.
    rewrite Z.geb_leb. reflexivity.
Qed.

(** The fifth wrong code in the window is answered Throttled. *)
Lemma validateOTP_failing_attempt_witness :
  outcome (validateOTP 2004 Scenario.user "000000" Scenario.afterFourWrong).1
  = Some Throttled.
Proof.
  destruct (validateOTP_failing_attempt Scenario.afterFourWrong 2004
              Scenario.user "000000"
              (Attempt.mk "000000" 2004 false (Some "invalid"))
              eq_refl eq_refl eq_refl) as [[_ H]|[H _]].
  - exact H.
  - discriminate H.
Defined.

(** C9: for a record holding a live code generated at instant [t], a call
    evaluated at [t + 10 min + 1 ms] answers Expired and logs a failed
    attempt with reason "expired", and a call evaluated at
    [t + 10 min - 1 ms] is not answered Expired. *)
Theorem validateOTP_expiry_boundary (st : AsyncStorage.t) (t : Z)
    (email inputOTP : string) :
  healthy st ->
  live (otpRecord st email) = true ->
  OTPData.otpGeneratedAt (otpRecord st email) = Some t ->
  let late := t + OTP_CONFIG.VALIDITY_MS + 1 in
  let early := t + OTP_CONFIG.VALIDITY_MS - 1 in
  outcome (validateOTP late email inputOTP st).1 = Some Expired
  /\ OTPData.attempts (otpRecord (validateOTP late email inputOTP st).2 email)
     = OTPData.attempts (otpRecord st email)
         ++ [Attempt.mk inputOTP late false (Some "expired")]
  /\ (exists o, outcome (validateOTP early email inputOTP st).1 = Some o
                /\ o <> Expired).
Proof.
  intros Hst Hlive Hgen late early.
  assert (Hlate : late - to_number (OTPData.otpGeneratedAt (otpRecord st email))
                  > OTP_CONFIG.VALIDITY_MS)
    by (rewrite Hgen; subst late; simpl; lia).
  assert (Hearly : ~ early - to_number (OTPData.otpGeneratedAt (otpRecord st email))
                     > OTP_CONFIG.VALIDITY_MS)
    by (rewrite Hgen; subst early; simpl; lia).
  rewrite (validateOTP_expired st Hst late email inputOTP Hlive Hlate).
  split; [reflexivity|]. split; [simpl; now rewrite (otpRecord_put st)|].
  destruct (validateOTP_verdict st early email inputOTP Hst)
    as [H _ _|_ Ho Hl|_ _ Ho _|_ _ Ho _|_ _ Ho _].
  - congruence.
  - exfalso. apply Hearly.
    destruct (Z_gt_le_dec
                (early - to_number (OTPData.otpGeneratedAt (otpRecord st email)))
                OTP_CONFIG.VALIDITY_MS) as [Hgt|Hle]; [exact Hgt|].
    destruct (hasExceededMaxAttempts early (OTPData.attempts (otpRecord st email)))
      eqn:Hcap.
    + rewrite (validateOTP_throttled st Hst early email inputOTP Hlive Hle Hcap)
        in Ho. discriminate Ho.
    + destruct (strict_eq (OTPData.currentOTP (otpRecord st email)) inputOTP)
        eqn:Heq.
      * rewrite (validateOTP_match st Hst early email inputOTP
                   Hlive Hle Hcap Heq) in Ho. discriminate Ho.
      * rewrite (validateOTP_mismatch st Hst early email inputOTP
                   Hlive Hle Hcap Heq) in Ho.
        simpl in Ho. destruct (hasExceededMaxAttempts early (_ ++ _));
          discriminate Ho.
  - exists Throttled. now split.
  - exists Valid. now split.
  - destruct (hasExceededMaxAttempts early
                (OTPData.attempts (otpRecord (validateOTP _ _ _ _).2 _)));
      eexists; (split; [exact Ho|discriminate]).
Qed.

(** The code generated at instant 1000, verified one millisecond after and
    one millisecond before the end of its validity. *)
Lemma validateOTP_expiry_boundary_witness :
  outcome (validateOTP 601001 Scenario.user "123456" Scenario.afterRequest).1
  = Some Expired
  /\ outcome (validateOTP 600999 Scenario.user "123456" Scenario.afterRequest).1
     = Some Valid.
Proof.
  destruct (validateOTP_expiry_boundary Scenario.afterRequest 1000
              Scenario.user "123456" eq_refl eq_refl eq_refl)
    as (Hlate & _ & _).
  split; [exact Hlate|reflexivity].
Defined.

(* ================================================================== *)
(** ** Requesting codes *)

Lemma requestCodes_all_issued (email : string) (t0 : Z) (calls : list (Z * Z)) :
  Forall (fun call => t0 <= call.1) calls ->
  forall st : AsyncStorage.t,
    healthy st ->
    recentCount t0 (OTPData.attempts (otpRecord st email)) < 5 ->
    Forall (fun r => OtpResult.success r = true) (requestCodes calls email st).1
    /\ length (requestCodes calls email st).1 = length calls.
Proof.
  induction 1 as [|[now draw] calls Hnow _ IH]; intros st Hst Hcount.
  - split; [constructor|reflexivity].
  - simpl in Hnow. simpl requestCodes. unfold bind.
    assert (Hcap : hasExceededMaxAttempts now
                     (OTPData.attempts (otpRecord st email)) = false).
    { apply hasExceededMaxAttempts_false.
      pose proof (recentCount_antitone t0 now
                    (OTPData.attempts (otpRecord st email)) Hnow). lia. }
    rewrite (generateOTPForEmail_issued st Hst now email draw Hcap).
    match goal with |- context [requestCodes calls email ?s] =>
      destruct (IH s) as [Hall Hlen];
        [exact Hst|now rewrite (otpRecord_put st)|];
        destruct (requestCodes calls email s) as [rs st2]
    end.
    simpl in *. split; [constructor; [reflexivity|exact Hall]|].
    now rewrite Hlen.
Qed.

(** C4: [generateOTPForEmail] answers with its throttling error and leaves
    the medium untouched exactly when five or more attempts of the log lie
    in the trailing 60 minutes at call time, an attempt lying there when
    [now - attempt.timestamp < 60 minutes]; it never adds an attempt record,
    so once one request is not throttled, any number of further requests
    with no verification in between are all issued. *)
Theorem generateOTPForEmail_throttle (st : AsyncStorage.t) (now draw : Z)
    (email : string) :
  healthy st ->
  let r := (generateOTPForEmail now draw email st).1 in
  let st' := (generateOTPForEmail now draw email st).2 in
  ((throttledError r /\ st' = st)
   <-> 5 <= attemptsInWindow now (OTPData.attempts (otpRecord st email)))
  /\ (OtpResult.success r = true
      <-> attemptsInWindow now (OTPData.attempts (otpRecord st email)) < 5)
  /\ OTPData.attempts (otpRecord st' email)
     = OTPData.attempts (otpRecord st email)
  /\ forall calls : list (Z * Z),
       OtpResult.success r = true ->
       Forall (fun call => now <= call.1) calls ->
       Forall (fun r => OtpResult.success r = true)
         (requestCodes calls email st').1
       /\ length (requestCodes calls email st').1 = length calls.
Proof.
  intros Hst. cbv zeta.
  rewrite <- recentCount_attemptsInWindow.
  destruct (hasExceededMaxAttempts now (OTPData.attempts (otpRecord st email)))
    eqn:Hcap.
  - rewrite (generateOTPForEmail_throttled st Hst now email draw Hcap).
    apply hasExceededMaxAttempts_spec in Hcap. simpl.
    repeat split; try assumption; try discriminate; try lia; intros; try lia;
      discriminate.
  - rewrite (generateOTPForEmail_issued st Hst now email draw Hcap).
    apply hasExceededMaxAttempts_false in Hcap. simpl.
    rewrite (otpRecord_put st). simpl.
    split; [|split; [|split]].
    + split; [intros [[Hs _] _]; discriminate Hs|lia].
    + split; [intros _; exact Hcap|reflexivity].
    + reflexivity.
    + intros calls _ Hcalls.
      apply (requestCodes_all_issued email now calls Hcalls); [exact Hst|].
      now rewrite (otpRecord_put st).
Qed.

(** After five wrong codes at the instants 2000 to 2004, a request at
    instant 3000 is throttled and changes nothing; a request at 3602003,
    when only the attempt of 2004 is less than 60 minutes old, is issued;
    and seven requests in a row with no attempt in between are all
    issued. *)
Lemma generateOTPForEmail_throttle_witness :
  (throttledError
     (generateOTPForEmail 3000 1 Scenario.user Scenario.afterFiveWrong).1
   /\ (generateOTPForEmail 3000 1 Scenario.user Scenario.afterFiveWrong).2
      = Scenario.afterFiveWrong)
  /\ OtpResult.success
       (generateOTPForEmail 3602003 1 Scenario.user Scenario.afterFiveWrong).1
     = true
  /\ Forall (fun r => OtpResult.success r = true)
       (requestCodes [(1000, 1); (1001, 2); (1002, 3); (1003, 4); (1004, 5);
                      (1005, 6); (1006, 7)]
          Scenario.user Scenario.afterRequest).1.
Proof.
  assert (Hlog : OTPData.attempts
                   (otpRecord Scenario.afterFiveWrong Scenario.user)
                 = map (fun t => Attempt.mk "000000" t false (Some "invalid"))
                     [2000; 2001; 2002; 2003; 2004]) by reflexivity.
  split; [|split].
  - apply (generateOTPForEmail_throttle Scenario.afterFiveWrong 3000 1
             Scenario.user eq_refl).
    rewrite Hlog. discriminate.
  - apply (generateOTPForEmail_throttle Scenario.afterFiveWrong 3602003 1
             Scenario.user eq_refl).
    rewrite Hlog. reflexivity.
  - apply (generateOTPForEmail_throttle AsyncStorage.empty 1000 23456
             Scenario.user eq_refl);
      [reflexivity|repeat constructor; simpl; lia].
Defined.

(* ================================================================== *)
(** ** One code, one success *)

(** Consuming an entry of the schedule changes no stored value. *)
Lemma afterFault_contents (st : AsyncStorage.t) :
  contents (afterFault st) = contents st.
Proof. destruct st as [p s o a [|f fs]]; reflexivity. Qed.

Lemma otpRecords_contents (st st' : AsyncStorage.t) :
  contents st' = contents st -> otpRecords st' = otpRecords st.
Proof. unfold contents, otpRecords. intros [= _ _ -> _]. reflexivity. Qed.

Lemma getItem_any {V : Type} (key : Key V) (st : AsyncStorage.t) :
  storageService.getItem key st
  = (if nextFault st then None else read key (afterFault st), afterFault st).
Proof.
  unfold nextFault, afterFault, storageService.getItem, Native.getItem, bind,
    ret.
  destruct (Native.next_fault st) as [[] st1]; reflexivity.
Qed.

Lemma setItem_any {V : Type} (key : Key V) (value : V) (st : AsyncStorage.t) :
  storageService.setItem key value st
  = (if nextFault st then (false, afterFault st)
     else (true, write key (Some value) (afterFault st))).
Proof.
  unfold nextFault, afterFault, storageService.setItem, Native.setItem, bind,
    ret.
  destruct (Native.next_fault st) as [[] st1]; reflexivity.
Qed.

(** Under any schedule of faults, [getOTPData] loads the stored record or,
    after a rejected read, the empty one, and changes no stored value. *)
Lemma getOTPData_any (st : AsyncStorage.t) (email : string) :
  contents (getOTPData email st).2 = contents st
  /\ ((getOTPData email st).1 = otpRecord st email
      \/ (getOTPData email st).1
         = OTPData.mk (toLowerCase email) [] None None).
Proof.
  unfold getOTPData, otpStorage.getByEmail, otpStorage.getAll, bind, ret.
  rewrite getItem_any. cbn [fst snd].
  split; [apply afterFault_contents|].
  destruct (nextFault st).
  - right. cbn. now rewrite lookup_empty.
  - left. unfold otpRecord.
    change (default ∅ (read STORAGE_KEYS.OTP_DATA (afterFault st)))
      with (otpRecords (afterFault st)).
    rewrite (otpRecords_contents _ _ (afterFault_contents st)).
    now destruct (otpRecords st !! toLowerCase email).
Qed.

(** Under any schedule of faults, [otpStorage.save] leaves the e-mail with
    the record it was given, or leaves the whole store as it was. *)
Lemma otpStorage_save_any (st : AsyncStorage.t) (email : string)
    (data : OTPData.t) :
  otpRecord (otpStorage.save email data st).2 email = data
  \/ otpRecords (otpStorage.save email data st).2 = otpRecords st.
Proof.
  unfold otpStorage.save, otpStorage.getAll, bind, ret.
  rewrite getItem_any. cbn [fst snd]. rewrite setItem_any.
  destruct (nextFault (afterFault st)); cbn [fst snd].
  - right.
    now rewrite !(otpRecords_contents _ _ (afterFault_contents _)).
  - left. unfold otpRecord, otpRecords. cbn.
    now rewrite lookup_insert_eq.
Qed.

(** Under any schedule of faults, a [validateOTP] that answers Valid leaves
    the record of the e-mail either as it was, its one write rejected, or
    with the attempt appended and the code and its instant cleared: the two
    changes are never stored one without the other. *)
Lemma validateOTP_valid_atomic (st : AsyncStorage.t) (now : Z)
    (email inputOTP : string) :
  outcome (validateOTP now email inputOTP st).1 = Some Valid ->
  otpRecord (validateOTP now email inputOTP st).2 email = otpRecord st email
  \/ otpRecord (validateOTP now email inputOTP st).2 email
     = OTPData.mk (OTPData.email (otpRecord st email))
         (OTPData.attempts (otpRecord st email)
            ++ [Attempt.mk inputOTP now true None])
         None None.
Proof.
  remember (validateOTP now email inputOTP st) as call eqn:Hcall.
  unfold validateOTP, bind in Hcall.
  destruct (getOTPData_any st email) as [Hc Hd].
  destruct (getOTPData email st) as [d st1]. cbn [fst snd] in Hc, Hd.
  destruct (negb (truthy_opt_string (OTPData.currentOTP d))
            || negb (truthy_opt_number (OTPData.otpGeneratedAt d))) eqn:Hlive.
  { rewrite Hcall. discriminate. }
  cbv zeta in Hcall.
  destruct (now - to_number (OTPData.otpGeneratedAt d) >? OTP_CONFIG.VALIDITY_MS).
  { destruct (otpStorage.save _ _ st1) as [b st2]. rewrite Hcall.
    discriminate. }
  destruct (hasExceededMaxAttempts now (OTPData.attempts d)).
  { rewrite Hcall. discriminate. }
  destruct (strict_eq (OTPData.currentOTP d) inputOTP);
    cbn [negb] in Hcall; cbv beta iota zeta in Hcall.
  - destruct Hd as [Hd|Hd]; [|rewrite Hd in Hlive; discriminate Hlive].
    intros _.
    match type of Hcall with
    | context [otpStorage.save email ?data st1] =>
        destruct (otpStorage_save_any st1 email data) as [Hsaved|Hkept];
          destruct (otpStorage.save email data st1) as [b st2]
    end; rewrite Hcall; cbn [fst snd ret] in *.
    + right. rewrite Hsaved, Hd. reflexivity.
    + left. unfold otpRecord. rewrite Hkept.
      now rewrite (otpRecords_contents _ _ Hc).
  - destruct (otpStorage.save _ _ st1) as [b st2].
    cbn [OTPData.attempts] in Hcall.
    destruct (Z.of_nat _ >=? OTP_CONFIG.MAX_ATTEMPTS); rewrite Hcall;
      discriminate.
Qed.

(** C6: a call submitting the code [generateOTPForEmail] has just returned
    succeeds; its single write stores the record with the attempt appended
    and with the code and its generation instant cleared; a second call
    with the same code then answers NotFound.  The two changes go in one
    write: whichever of the native calls reject, a call that answers Valid
    leaves the record either as it was or with both changes, never with one
    of them only. *)
Theorem validateOTP_succeeds_once (st : AsyncStorage.t) (t t' t'' draw : Z)
    (email code : string) :
  healthy st ->
  t <> 0 ->
  OtpResult.otp (generateOTPForEmail t draw email st).1 = Some code ->
  t <= t' <= t + OTP_CONFIG.VALIDITY_MS ->
  let requested := (generateOTPForEmail t draw email st).2 in
  let first := validateOTP t' email code requested in
  let second := validateOTP t'' email code first.2 in
  let cleared :=
    OTPData.mk (OTPData.email (otpRecord requested email))
      (OTPData.attempts (otpRecord requested email)
         ++ [Attempt.mk code t' true None])
      None None in
  outcome first.1 = Some Valid
  /\ first.2 = putOtpRecord email cleared requested
  /\ outcome second.1 = Some NotFound
  /\ second.2 = first.2
  /\ forall fs : list bool,
       let call :=
         validateOTP t' email code (AsyncStorage.with_faults fs requested) in
       outcome call.1 = Some Valid ->
       otpRecord call.2 email = otpRecord requested email
       \/ otpRecord call.2 email = cleared.
Proof.
  intros Hst Ht Hotp Hwin. cbv zeta.
  destruct (hasExceededMaxAttempts t (OTPData.attempts (otpRecord st email)))
    eqn:Hcap.
  { rewrite (generateOTPForEmail_throttled st Hst t email draw Hcap) in Hotp.
    discriminate Hotp. }
  rewrite (generateOTPForEmail_issued st Hst t email draw Hcap) in Hotp |- *.
  simpl in Hotp. injection Hotp as <-. simpl snd.
  set (issued := OTPData.mk _ _ (Some (generateOTP draw)) (Some t)).
  set (requested := putOtpRecord email issued st).
  assert (Hreq : healthy requested) by exact Hst.
  assert (Hrec : otpRecord requested email = issued)
    by apply (otpRecord_put st).
  assert (Hlive : live (otpRecord requested email) = true).
  { rewrite Hrec. unfold live, issued. simpl OTPData.currentOTP.
    rewrite generateOTP_truthy. simpl.
    apply Bool.negb_true_iff, Z.eqb_neq, Ht. }
  assert (Hfresh : t' - to_number (OTPData.otpGeneratedAt (otpRecord requested email))
                   <= OTP_CONFIG.VALIDITY_MS)
    by (rewrite Hrec; simpl; lia).
  assert (Hcap' : hasExceededMaxAttempts t'
                    (OTPData.attempts (otpRecord requested email)) = false).
  { rewrite Hrec. simpl. apply hasExceededMaxAttempts_false.
    apply hasExceededMaxAttempts_false in Hcap.
    pose proof (recentCount_antitone t t'
                  (OTPData.attempts (otpRecord st email)) (proj1 Hwin)). lia. }
  assert (Heq : strict_eq (OTPData.currentOTP (otpRecord requested email))
                  (generateOTP draw) = true)
    by (rewrite Hrec; simpl; apply String.eqb_refl).
  rewrite (validateOTP_match requested Hreq t' email (generateOTP draw)
             Hlive Hfresh Hcap' Heq).
  simpl fst. simpl snd.
  split; [reflexivity|]. split; [reflexivity|].
  rewrite validateOTP_notFound;
    [|exact Hreq|now rewrite (otpRecord_put requested)].
  split; [reflexivity|]. split; [reflexivity|].
  intros fs Hvalid.
  exact (validateOTP_valid_atomic (AsyncStorage.with_faults fs requested)
           t' email (generateOTP draw) Hvalid).
Qed.

(** The code requested at instant 1000 is accepted at 2000 and unknown at
    2001; and where the read inside the save is rejected and the write goes
    through, the call answers Valid and the record holds both changes. *)
Lemma validateOTP_succeeds_once_witness :
  let first := validateOTP 2000 Scenario.user "123456" Scenario.afterRequest in
  let faulty :=
    validateOTP 2000 Scenario.user "123456"
      (AsyncStorage.with_faults [false; true; false] Scenario.afterRequest) in
  outcome first.1 = Some Valid
  /\ outcome (validateOTP 2001 Scenario.user "123456" first.2).1
     = Some NotFound
  /\ (otpRecord faulty.2 Scenario.user
      = otpRecord Scenario.afterRequest Scenario.user
      \/ otpRecord faulty.2 Scenario.user
         = OTPData.mk Scenario.user [Attempt.mk "123456" 2000 true None]
             None None).
Proof.
  destruct (validateOTP_succeeds_once AsyncStorage.empty 1000 2000 2001 23456
              Scenario.user "123456" eq_refl) as (H1 & _ & H2 & _ & H3);
    [lia|reflexivity|vm_compute; split; discriminate|].
  split; [exact H1|]. split; [exact H2|].
  exact (H3 [false; true; false] eq_refl).
Defined.

(* ================================================================== *)
(** ** Storage failures *)



(* ================================================================== *)
(** ** Ordered objects *)

Section JsObjectFacts.
Context {V : Type}.
Implicit Types (o : JsObject.t V) (k : string) (v : V).

Lemma get_remove_eq o k : JsObject.get k (JsObject.remove k o) = None.
Proof.
  induction o as [|[k' v'] o IH]; simpl; [reflexivity|].
  destruct (String.eqb k k') eqn:E; [exact IH|].
  simpl. now rewrite E.
Qed.

Lemma get_remove_ne o k k' :
  k <> k' -> JsObject.get k' (JsObject.remove k o) = JsObject.get k' o.
Proof.
  intros Hne. induction o as [|[k0 v0] o IH]; simpl; [reflexivity|].
  destruct (String.eqb_spec k k0) as [->|Hk].
  - destruct (String.eqb_spec k' k0) as [->|_]; [congruence|exact IH].
  - simpl. now rewrite IH.
Qed.

Lemma get_set_eq o k v : JsObject.get k (JsObject.set k v o) = Some v.
Proof.
  induction o as [|[k' v'] o IH]; simpl.
  - now rewrite String.eqb_refl.
  - destruct (String.eqb k k') eqn:E; simpl.
    + now rewrite String.eqb_refl.
    + now rewrite E.
Qed.

Lemma get_set_ne o k k' v :
  k <> k' -> JsObject.get k' (JsObject.set k v o) = JsObject.get k' o.
Proof.
  intros Hne. induction o as [|[k0 v0] o IH]; simpl.
  - destruct (String.eqb_spec k' k); [congruence|reflexivity].
  - destruct (String.eqb_spec k k0) as [->|Hk]; simpl.
    + destruct (String.eqb_spec k' k0); [congruence|reflexivity].
    + now rewrite IH.
Qed.

Lemma keys_remove o k : ~ In k (JsObject.keys (JsObject.remove k o)).
Proof.
  induction o as [|[k' v'] o IH]; simpl; [tauto|].
  destruct (String.eqb_spec k k') as [->|Hk]; [exact IH|].
  simpl. intros [H|H]; [congruence|tauto].
Qed.

Lemma get_Some_In o k v :
  JsObject.get k o = Some v -> In v (JsObject.values o).
Proof.
  induction o as [|[k' v'] o IH]; simpl; [discriminate|].
  destruct (String.eqb k k'); [intros [= ->]; now left|].
  intros H. right. now apply IH.
Qed.
End JsObjectFacts.

(** [find] returns the one element that satisfies the predicate. *)
Lemma Array_find_unique {A : Type} (p : A -> bool) (l : list A) (x : A) :
  In x l -> p x = true ->
  (forall y, In y l -> p y = true -> y = x) ->
  Array_find p l = Some x.
Proof.
  unfold Array_find. intros Hin Hp Huniq.
  destruct (List.find p l) as [y|] eqn:Hfind.
  - apply List.find_some in Hfind as [Hy Hpy]. f_equal. now apply Huniq.
  - exfalso. apply (List.find_none _ _ Hfind) in Hin. congruence.
Qed.

(* ================================================================== *)
(** ** The session engine on a healthy medium *)

Section SessionEngine.
Variable st : AsyncStorage.t.
Hypothesis Hst : healthy st.

Lemma sessionStorage_getAll_healthy :
  sessionStorage.getAll st = (sessionRecords st, st).
Proof.
  unfold sessionStorage.getAll, bind, ret.
  now rewrite (getItem_healthy st Hst).
Qed.

Lemma sessionStorage_getByToken_healthy (accessToken : string) :
  sessionStorage.getByToken accessToken st
  = (JsObject.get accessToken (sessionRecords st), st).
Proof.
  unfold sessionStorage.getByToken, bind, ret.
  now rewrite sessionStorage_getAll_healthy.
Qed.

Lemma sessionStorage_delete_healthy (accessToken : string) :
  sessionStorage.delete accessToken st
  = (true, putSessions (JsObject.remove accessToken (sessionRecords st)) st).
Proof.
  unfold sessionStorage.delete, bind.
  now rewrite sessionStorage_getAll_healthy, (setItem_healthy st Hst).
Qed.

Lemma sessionStorage_save_healthy (session : Session.t) :
  sessionStorage.save session st
  = (true,
     putSessions
       (JsObject.set (Session.accessToken session) session
          (sessionRecords st)) st).
Proof.
  unfold sessionStorage.save, bind.
  now rewrite sessionStorage_getAll_healthy, (setItem_healthy st Hst).
Qed.

Lemma putSessions_healthy (sessions : JsObject.t Session.t) :
  healthy (putSessions sessions st).
Proof. exact Hst. Qed.

Lemma getSession_absent (now : Z) (accessToken : string) :
  JsObject.get accessToken (sessionRecords st) = None ->
  getSession now accessToken st = (None, st).
Proof.
  intros Hget. unfold getSession.
  destruct (truthy_string accessToken); [|reflexivity].
  cbn [negb]. cbv beta iota. unfold bind.
  now rewrite sessionStorage_getByToken_healthy, Hget.
Qed.
End SessionEngine.

(** C8: for a session stored under its access token whose expiry instant
    has passed, [getSession] deletes the row and returns absent, and a
    following [getAll] of the sessions holds no record for that token. *)
Theorem getSession_expired (st : AsyncStorage.t) (now : Z)
    (accessToken : string) (session : Session.t) :
  healthy st ->
  accessToken <> "" ->
  JsObject.get accessToken (sessionRecords st) = Some session ->
  Session.expiresAt session < now ->
  let call := getSession now accessToken st in
  let remaining := (sessionStorage.getAll call.2).1 in
  call.1 = None
  /\ remaining = JsObject.remove accessToken (sessionRecords st)
  /\ JsObject.get accessToken remaining = None
  /\ ~ In accessToken (JsObject.keys remaining).
Proof.
  intros Hst Htok Hget Hexp. cbv zeta.
  assert (Hcall : getSession now accessToken st
                  = (None, putSessions
                             (JsObject.remove accessToken (sessionRecords st))
                             st)).
  { unfold getSession. apply truthy_string_spec in Htok. rewrite Htok.
    cbn [negb]. cbv beta iota. unfold bind.
    rewrite (sessionStorage_getByToken_healthy st Hst), Hget.
    apply Z.lt_gt, Z.gtb_gt in Hexp. rewrite Hexp.
    now rewrite (sessionStorage_delete_healthy st Hst). }
  rewrite Hcall. simpl fst. simpl snd.
  rewrite (sessionStorage_getAll_healthy _ (putSessions_healthy st Hst _)).
  simpl. repeat split.
  - apply get_remove_eq.
  - apply keys_remove.
Qed.

(** The session issued at instant 2000, looked up one millisecond after its
    seven days. *)
Lemma getSession_expired_witness :
  (getSession 604802001 "access_2000_k3j9x0aaa" Scenario.signedUp).1 = None
  /\ JsObject.get "access_2000_k3j9x0aaa"
       (sessionStorage.getAll
          (getSession 604802001 "access_2000_k3j9x0aaa" Scenario.signedUp).2).1
     = None.
Proof.
  destruct (getSession_expired Scenario.signedUp 604802001
              "access_2000_k3j9x0aaa" Scenario.session eq_refl)
    as (H1 & _ & H2 & _);
    [discriminate|reflexivity|reflexivity|].
  split; [exact H1|exact H2].
Defined.



(* ================================================================== *)
(** ** Accounts *)

Section Accounts.
Variable st : AsyncStorage.t.
Hypothesis Hst : healthy st.

Lemma parentStorage_getByEmail_healthy (email : string) :
  parentStorage.getByEmail email st
  = (parentRecords st !! toLowerCase email, st).
Proof.
  unfold parentStorage.getByEmail, parentStorage.getAll, bind, ret.
  now rewrite (getItem_healthy st Hst).
Qed.

Lemma parentStorage_save_healthy (parent : Parent.t) :
  parentStorage.save parent st
  = (true,
     putParents
       (<[toLowerCase (Parent.email parent) := parent]> (parentRecords st))
       st).
Proof.
  unfold parentStorage.save, parentStorage.getAll, bind, ret.
  now rewrite (getItem_healthy st Hst), (setItem_healthy st Hst).
Qed.

Lemma parentStorage_delete_healthy (email : string) :
  parentStorage.delete email st
  = (true,
     putParents (base.delete (toLowerCase email) (parentRecords st)) st).
Proof.
  unfold parentStorage.delete, parentStorage.getAll, bind, ret.
  now rewrite (getItem_healthy st Hst), (setItem_healthy st Hst).
Qed.

Lemma otpStorage_delete_healthy (email : string) :
  otpStorage.delete email st
  = (true,
     write STORAGE_KEYS.OTP_DATA
       (Some (base.delete (toLowerCase email) (otpRecords st))) st).
Proof.
  unfold otpStorage.delete, otpStorage.getAll, bind, ret.
  now rewrite (getItem_healthy st Hst), (setItem_healthy st Hst).
Qed.

Lemma analyticsStorage_addEvent_healthy (now : Z) (event : Event.t) :
  analyticsStorage.addEvent now event st
  = (true,
     write STORAGE_KEYS.ANALYTICS
       (Some (default [] (AsyncStorage.analytics st)
                ++ [Event.stamp event now])) st).
Proof.
  unfold analyticsStorage.addEvent, analyticsStorage.getAll, bind, ret.
  now rewrite (getItem_healthy st Hst), (setItem_healthy st Hst).
Qed.

Lemma validateOTP_keeps_healthy (now : Z) (email inputOTP : string) :
  healthy (validateOTP now email inputOTP st).2.
Proof.
  destruct (live (otpRecord st email)) eqn:Hlive.
  2: { now rewrite (validateOTP_notFound st Hst now email inputOTP Hlive). }
  destruct (Z_gt_le_dec
              (now - to_number (OTPData.otpGeneratedAt (otpRecord st email)))
              OTP_CONFIG.VALIDITY_MS) as [Hexp|Hexp].
  { now rewrite (validateOTP_expired st Hst now email inputOTP Hlive Hexp). }
  destruct (hasExceededMaxAttempts now (OTPData.attempts (otpRecord st email)))
    eqn:Hcap.
  { now rewrite (validateOTP_throttled st Hst now email inputOTP
                   Hlive Hexp Hcap). }
  destruct (strict_eq (OTPData.currentOTP (otpRecord st email)) inputOTP)
    eqn:Heq.
  - now rewrite (validateOTP_match st Hst now email inputOTP
                   Hlive Hexp Hcap Heq).
  - now rewrite (validateOTP_mismatch st Hst now email inputOTP
                   Hlive Hexp Hcap Heq).
Qed.

End Accounts.

(** Whatever row the account had, a successful [completeSignup] leaves a row
    holding the e-mail and the instant of the call, and nothing else. *)
Lemma completeSignup_parent_row (st : AsyncStorage.t) (env : Env) (now : Z)
    (suffixA suffixR email otp : string) :
  healthy st ->
  SignupComplete.success
    (completeSignup env now suffixA suffixR email otp st).1 = true ->
  parentRecords (completeSignup env now suffixA suffixR email otp st).2
    !! toLowerCase email
  = Some (Parent.mk (toLowerCase email) now now None None).
Proof.
  intros Hst.
  remember (completeSignup env now suffixA suffixR email otp st) as call
    eqn:Hcall.
  unfold completeSignup, generateTokens, bind in Hcall.
  pose proof (validateOTP_keeps_healthy st Hst now email otp) as H1.
  destruct (validateOTP now email otp st) as [v st1]. simpl in H1.
  destruct (Validation.valid v); cbn [negb] in Hcall;
    cbv beta iota zeta in Hcall.
  - rewrite (parentStorage_save_healthy st1 H1) in Hcall.
    set (st2 := putParents _ st1) in Hcall.
    assert (H2 : healthy st2) by exact H1.
    rewrite (sessionStorage_save_healthy st2 H2) in Hcall.
    set (st3 := putSessions _ st2) in Hcall.
    assert (H3 : healthy st3) by exact H1.
    rewrite (analyticsStorage_addEvent_healthy st3 H3) in Hcall.
    rewrite Hcall. intros _. cbn [fst snd ret]. unfold parentRecords. cbn.
    rewrite toLowerCase_idempotent. apply lookup_insert_eq.
  - destruct (analyticsStorage.addEvent _ _ _) as [b st2].
    rewrite Hcall. cbn. discriminate.
Qed.

(** The sibling path: [updateParentProfile] merges into the stored row, so
    the creation instant and the fields it is not given survive. *)
Lemma updateParentProfile_keeps_fields (st : AsyncStorage.t) (now : Z)
    (email : string) (flag : bool) (existing : Parent.t) :
  healthy st ->
  parentRecords st !! toLowerCase email = Some existing ->
  (updateParentProfile now email (ProfileData.mk None (Some flag)) st).1
  = inr (Parent.mk (Parent.email existing) (Parent.createdAt existing) now
           (Parent.name existing) (Some flag)).
Proof.
  intros Hst Hrow. unfold updateParentProfile. cbn [ProfileData.name].
  cbv beta iota zeta. unfold bind at 1.
  rewrite (parentStorage_getByEmail_healthy st Hst), Hrow.
  unfold bind, trackEvent, bind.
  destruct (parentStorage.save _ st) as [b st1].
  destruct (analyticsStorage.addEvent _ _ st1) as [b' st2].
  reflexivity.
Qed.

(** C1 (the code departs from the claim): an account that was created at
    instant 2000 and then given a name and the skipped-setup flag signs up
    again; the successful [completeSignup] at instant 6000 replaces its row
    by a bare one: the name and the flag are gone and the creation instant
    is reset. *)
Theorem completeSignup_resets_existing_account :
  let before := Scenario.resignupRequested in
  let call := completeSignup Scenario.env 6000 "m4n8b2ccc" "v6c3x9ddd"
                "User@Example.com" "165432" before in
  parentRecords before !! Scenario.user
  = Some (Parent.mk Scenario.user 2000 3500 (Some "Ann") (Some true))
  /\ SignupComplete.success call.1 = true
  /\ parentRecords call.2 !! Scenario.user
     = Some (Parent.mk Scenario.user 6000 6000 None None).
Proof. cbv zeta. repeat split; vm_compute; reflexivity. Qed.

(* ================================================================== *)
(** ** E-mail keys *)

Lemma lowercaseKeys_empty {V : Type} : lowercaseKeys (∅ : gmap string V).
Proof. intros k [v Hv]. now rewrite lookup_empty in Hv. Qed.

Lemma lowercaseKeys_insert {V : Type} (m : gmap string V) (email : string)
    (v : V) :
  lowercaseKeys m -> lowercaseKeys (<[toLowerCase email := v]> m).
Proof.
  intros Hm k Hk. destruct (decide (toLowerCase email = k)) as [<-|Hne].
  - apply toLowerCase_idempotent.
  - rewrite lookup_insert_ne in Hk by exact Hne. now apply Hm.
Qed.

Lemma lowercaseKeys_delete {V : Type} (m : gmap string V) (k0 : string) :
  lowercaseKeys m -> lowercaseKeys (base.delete k0 m).
Proof.
  intros Hm k [v Hk]. apply lookup_delete_Some in Hk as [_ Hk].
  apply Hm. now exists v.
Qed.

(** With all keys in lower case, a lower-case e-mail has at most one key. *)
Lemma lowercaseKeys_one_record {V : Type} (m : gmap string V) (k1 k2 : string) :
  lowercaseKeys m ->
  is_Some (m !! k1) -> is_Some (m !! k2) ->
  toLowerCase k1 = toLowerCase k2 -> k1 = k2.
Proof.
  intros Hm H1 H2 Heq. rewrite <- (Hm k1 H1), <- (Hm k2 H2). exact Heq.
Qed.

Create HintDb lowercase.

#[local] Hint Resolve lowercaseKeys_empty lowercaseKeys_insert
  lowercaseKeys_delete : lowercase.

(** A store operation, under any faults, keeps the e-mail keys of both
    objects in lower case. *)
Lemma runStoreOp_lowercaseKeys (op : StoreOp) (st : AsyncStorage.t) :
  lowercaseKeys (parentRecords st) /\ lowercaseKeys (otpRecords st) ->
  lowercaseKeys (parentRecords (runStoreOp op st).2)
  /\ lowercaseKeys (otpRecords (runStoreOp op st).2).
Proof.
  intros [Hp Ho]. destruct st as [p s o a fs].
  unfold parentRecords, otpRecords in *. cbn in Hp, Ho.
  destruct op; destruct fs as [|[] [|[] fs]]; cbn; split;
    auto with lowercase.
Qed.

Lemma reachable_lowercaseKeys (st : AsyncStorage.t) :
  reachable st ->
  lowercaseKeys (parentRecords st) /\ lowercaseKeys (otpRecords st).
Proof.
  induction 1 as [fs|st op fs _ IH].
  - split; apply lowercaseKeys_empty.
  - apply (runStoreOp_lowercaseKeys op) in IH. exact IH.
Qed.

(** C10: the account store and the OTP store lower-case the e-mail before
    they read, write or delete: for two e-mails that differ only in letter
    case, a read under either spelling returns the record written (or finds
    the record deleted) under the other, both spellings read the same
    record, and each object holds at most one record per lower-case
    e-mail. *)
Theorem email_keys_ignore_case (st : AsyncStorage.t) (e1 e2 : string)
    (parent : Parent.t) (data : OTPData.t) :
  reachable st ->
  healthy st ->
  toLowerCase e1 = toLowerCase e2 ->
  Parent.email parent = e1 ->
  ((parentStorage.getByEmail e2 (parentStorage.save parent st).2).1 = Some parent
   /\ (parentStorage.getByEmail e1 (parentStorage.save parent st).2).1
      = Some parent
   /\ (otpStorage.getByEmail e2 (otpStorage.save e1 data st).2).1 = Some data
   /\ (otpStorage.getByEmail e1 (otpStorage.save e1 data st).2).1 = Some data
   /\ (getOTPData e2 (otpStorage.save e1 data st).2).1 = data)
  /\ ((parentStorage.getByEmail e2 (parentStorage.delete e1 st).2).1 = None
      /\ (otpStorage.getByEmail e2 (otpStorage.delete e1 st).2).1 = None)
  /\ ((parentStorage.getByEmail e1 st).1 = (parentStorage.getByEmail e2 st).1
      /\ (otpStorage.getByEmail e1 st).1 = (otpStorage.getByEmail e2 st).1)
  /\ (forall k1 k2 : string,
        is_Some (parentRecords st !! k1) -> is_Some (parentRecords st !! k2) ->
        toLowerCase k1 = toLowerCase k2 -> k1 = k2)
  /\ (forall k1 k2 : string,
        is_Some (otpRecords st !! k1) -> is_Some (otpRecords st !! k2) ->
        toLowerCase k1 = toLowerCase k2 -> k1 = k2).
Proof.
  intros Hreach Hst Hcase Hemail.
  destruct (reachable_lowercaseKeys st Hreach) as [Hp Ho].
  rewrite (parentStorage_save_healthy st Hst), (otpStorage_save_healthy st Hst),
    (parentStorage_delete_healthy st Hst), (otpStorage_delete_healthy st Hst).
  cbn [fst snd].
  set (stP := putParents _ st). set (stO := putOtpRecord _ _ st).
  set (stP' := putParents _ st). set (stO' := write _ _ st).
  rewrite !(parentStorage_getByEmail_healthy stP Hst),
    !(parentStorage_getByEmail_healthy stP' Hst),
    !(parentStorage_getByEmail_healthy st Hst),
    !(otpStorage_getByEmail_healthy stO Hst),
    !(otpStorage_getByEmail_healthy stO' Hst),
    !(otpStorage_getByEmail_healthy st Hst),
    (getOTPData_healthy stO Hst).
  cbn [fst snd]. subst stP stO stP' stO'.
  assert (HP : forall m, parentRecords (putParents m st) = m) by reflexivity.
  assert (HO : forall m,
             otpRecords (write STORAGE_KEYS.OTP_DATA (Some m) st) = m)
    by reflexivity.
  unfold otpRecord, putOtpRecord. rewrite !HP, !HO.
  rewrite Hemail, <- Hcase, !lookup_insert_eq, !lookup_delete_eq.
  repeat split; try reflexivity.
  - intros k1 k2. now apply lowercaseKeys_one_record.
  - intros k1 k2. now apply lowercaseKeys_one_record.
Qed.

(** A parent saved as "User@Example.com" is read as "USER@example.com". *)
Lemma email_keys_ignore_case_witness :
  let st := AsyncStorage.with_faults []
              (runStoreOp (OtpSave "User@Example.com"
                             (OTPData.mk "user@example.com" [] None None))
                 (AsyncStorage.with_faults [] AsyncStorage.empty)).2 in
  let parent := Parent.mk "User@Example.com" 2000 2000 None None in
  (parentStorage.getByEmail "USER@example.com"
     (parentStorage.save parent st).2).1 = Some parent.
Proof.
  cbv zeta.
  apply (email_keys_ignore_case _ "User@Example.com" "USER@example.com"
           (Parent.mk "User@Example.com" 2000 2000 None None)
           (OTPData.mk "user@example.com" [] None None)
           (reachable_step _ (OtpSave "User@Example.com"
                                (OTPData.mk "user@example.com" [] None None))
              [] (reachable_empty []))
           eq_refl eq_refl eq_refl).
Defined.

(* ================================================================== *)
(** ** Trimming *)

Lemma is_space_lower_ascii (c : ascii) : is_space (lower_ascii c) = is_space c.
Proof. destruct c as [[] [] [] [] [] [] [] []]; reflexivity. Qed.

Lemma toLowerCase_empty_iff (s : string) : toLowerCase s = "" <-> s = "".
Proof. destruct s; simpl; split; congruence. Qed.

Lemma truthy_toLowerCase (s : string) :
  truthy_string (toLowerCase s) = truthy_string s.
Proof. now destruct s. Qed.

Lemma trimStart_toLowerCase (s : string) :
  trimStart (toLowerCase s) = toLowerCase (trimStart s).
Proof.
  induction s as [|c s IH]; simpl; [reflexivity|].
  rewrite is_space_lower_ascii. now destruct (is_space c).
Qed.

Lemma trimEnd_toLowerCase (s : string) :
  trimEnd (toLowerCase s) = toLowerCase (trimEnd s).
Proof.
  induction s as [|c s IH]; simpl; [reflexivity|].
  rewrite is_space_lower_ascii, IH.
  destruct (is_space c); simpl; [|reflexivity].
  now destruct (trimEnd s).
Qed.

Lemma trim_toLowerCase (s : string) :
  trim (toLowerCase s) = toLowerCase (trim s).
Proof. unfold trim. now rewrite trimStart_toLowerCase, trimEnd_toLowerCase. Qed.

Lemma trimStart_startsClean (s : string) : startsClean (trimStart s).
Proof.
  induction s as [|c s IH]; cbn [startsClean trimStart]; [exact I|].
  destruct (is_space c) eqn:E; [exact IH|exact E].
Qed.

Lemma trimStart_clean (s : string) : startsClean s -> trimStart s = s.
Proof.
  destruct s as [|c s]; cbn [startsClean trimStart]; [reflexivity|].
  now intros ->.
Qed.

Lemma trimEnd_startsClean (s : string) :
  startsClean s -> startsClean (trimEnd s).
Proof.
  destruct s as [|c s]; cbn [startsClean trimEnd]; [trivial|].
  intros H. rewrite H. exact H.
Qed.

Lemma trimEnd_idempotent (s : string) : trimEnd (trimEnd s) = trimEnd s.
Proof.
  induction s as [|c s IH]; simpl; [reflexivity|].
  destruct (is_space c && String.eqb (trimEnd s) "") eqn:E; [reflexivity|].
  simpl. now rewrite IH, E.
Qed.

Lemma trim_idempotent (s : string) : trim (trim s) = trim s.
Proof.
  unfold trim.
  rewrite (trimStart_clean (trimEnd (trimStart s))).
  - apply trimEnd_idempotent.
  - apply trimEnd_startsClean, trimStart_startsClean.
Qed.

Lemma trim_empty : trim "" = "".
Proof. reflexivity. Qed.

(* ================================================================== *)
(** ** E-mail validation *)

Lemma split_nonempty (sep : ascii) (s : string) : split sep s <> [].
Proof.
  destruct s as [|c s]; simpl; [discriminate|].
  destruct (Ascii.eqb c sep); [discriminate|].
  destruct (split sep s); discriminate.
Qed.

(** X1: [validateEmail] looks at its argument only through its trimmed,
    lower-case form: an address and that form get the same verdict. *)
Theorem validateEmail_normal_form (email : string) :
  validateEmail (toLowerCase (trim email)) = validateEmail email.
Proof.
  unfold validateEmail.
  rewrite trim_toLowerCase, trim_idempotent, toLowerCase_idempotent.
  rewrite !truthy_toLowerCase.
  destruct email as [|c email]; [reflexivity|].
  change (truthy_string (String c email)) with true. simpl negb.
  rewrite Bool.orb_diag. reflexivity.
Qed.

(** X2: an address [validateEmail] accepts has, once trimmed and
    lower-cased, exactly one ["@"], a non-empty local part made of the
    allowed characters, a domain made of well-formed labels, and a domain
    that is not on the list of disposable domains. *)
Theorem validateEmail_accepted (email : string) :
  Validation.valid (validateEmail email) = true ->
  exists loc domain : string,
    split "@" (toLowerCase (trim email)) = [loc; domain]
    /\ loc <> ""
    /\ all_chars is_local_char loc = true
    /\ forallb is_label (split "." domain) = true
    /\ ~ In domain DISPOSABLE_DOMAINS.
Proof.
  unfold validateEmail.
  destruct (negb (truthy_string email) || negb (truthy_string (trim email)));
    [discriminate|].
  set (t := toLowerCase (trim email)).
  assert (Htrim : trim t = t)
    by (unfold t; now rewrite trim_toLowerCase, trim_idempotent).
  assert (Hlow : toLowerCase t = t) by apply toLowerCase_idempotent.
  unfold isValidEmailFormat, isDisposableDomain. rewrite Htrim, Hlow.
  destruct (truthy_string t); simpl negb; cbv beta iota; [|discriminate].
  unfold strictEmailRegex_test.
  destruct (split "@" t) as [|loc [|domain [|x rest]]]; try discriminate.
  destruct (truthy_string loc && all_chars is_local_char loc
            && forallb is_label (split "." domain)) eqn:Hfmt;
    simpl negb; cbv beta iota; [|discriminate].
  apply andb_prop in Hfmt as [Hfmt Hlabels].
  apply andb_prop in Hfmt as [Hloc Hchars].
  assert (Hdom : truthy_string domain = true).
  { destruct domain; [|reflexivity]. discriminate Hlabels. }
  rewrite Hdom. simpl negb. cbv beta iota.
  destruct (existsb (String.eqb domain) DISPOSABLE_DOMAINS) eqn:Hdis;
    [discriminate|].
  intros _. exists loc, domain.
  repeat split; try assumption.
  - now apply truthy_string_spec.
  - intros Hin. apply Bool.not_true_iff_false in Hdis. apply Hdis.
    apply existsb_exists. exists domain.
    split; [exact Hin|apply String.eqb_refl].
Qed.

Lemma validateEmail_accepted_witness :
  exists loc domain : string,
    split "@" (toLowerCase (trim "  User@Example.com ")) = [loc; domain]
    /\ ~ In domain DISPOSABLE_DOMAINS.
Proof.
  destruct (validateEmail_accepted "  User@Example.com " eq_refl)
    as (loc & domain & H1 & _ & _ & _ & H2).
  exists loc, domain. split; [exact H1|exact H2].
Defined.

(* ================================================================== *)
(** ** When a code is accepted *)

Lemma strict_eq_true (a : option string) (b : string) :
  strict_eq a b = true <-> a = Some b.
Proof.
  destruct a as [a|]; simpl; [|split; discriminate].
  rewrite String.eqb_eq. split; congruence.
Qed.

Lemma valid_outcome_iff (st : AsyncStorage.t) (now : Z)
    (email inputOTP : string) :
  healthy st ->
  let data := otpRecord st email in
  outcome (validateOTP now email inputOTP st).1 = Some Valid
  <-> (live data = true
       /\ now - to_number (OTPData.otpGeneratedAt data) <= OTP_CONFIG.VALIDITY_MS
       /\ recentCount now (OTPData.attempts data) < 5
       /\ OTPData.currentOTP data = Some inputOTP).
Proof.
  intros Hst data.
  destruct (live data) eqn:Hlive.
  2: { rewrite (validateOTP_notFound st Hst now email inputOTP Hlive).
       split; [discriminate|intros [H _]; discriminate H]. }
  destruct (Z_gt_le_dec (now - to_number (OTPData.otpGeneratedAt data))
              OTP_CONFIG.VALIDITY_MS) as [Hexp|Hexp].
  { rewrite (validateOTP_expired st Hst now email inputOTP Hlive Hexp).
    split; [discriminate|]. intros (_ & H & _). fold data in Hexp. lia. }
  destruct (hasExceededMaxAttempts now (OTPData.attempts data)) eqn:Hcap.
  { rewrite (validateOTP_throttled st Hst now email inputOTP Hlive Hexp Hcap).
    apply hasExceededMaxAttempts_spec in Hcap.
    split; [discriminate|]. intros (_ & _ & H & _). lia. }
  destruct (strict_eq (OTPData.currentOTP data) inputOTP) eqn:Heq.
  - rewrite (validateOTP_match st Hst now email inputOTP Hlive Hexp Hcap Heq).
    apply hasExceededMaxAttempts_false in Hcap.
    apply strict_eq_true in Heq. simpl. tauto.
  - rewrite (validateOTP_mismatch st Hst now email inputOTP Hlive Hexp Hcap Heq).
    split.
    + simpl. unfold outcome. simpl.
      destruct (hasExceededMaxAttempts now (_ ++ _)); discriminate.
    + intros (_ & _ & _ & H). apply strict_eq_true in H. congruence.
Qed.

(** X3: [validateOTP] answers Valid exactly when the record holds a live
    code, at most ten minutes have passed since it was generated, fewer than
    five attempts of the log are less than 60 minutes old, and the submitted
    code is the stored one; so a caller who is at the cap is never let in,
    even with the right code. *)
Theorem validateOTP_valid_iff (st : AsyncStorage.t) (now : Z)
    (email inputOTP : string) :
  healthy st ->
  let data := otpRecord st email in
  (outcome (validateOTP now email inputOTP st).1 = Some Valid
   <-> (live data = true
        /\ now - to_number (OTPData.otpGeneratedAt data)
           <= OTP_CONFIG.VALIDITY_MS
        /\ attemptsInWindow now (OTPData.attempts data) < 5
        /\ OTPData.currentOTP data = Some inputOTP))
  /\ (5 <= attemptsInWindow now (OTPData.attempts data) ->
      Validation.valid (validateOTP now email inputOTP st).1 = false).
Proof.
  intros Hst data. rewrite <- recentCount_attemptsInWindow.
  destruct (live data) eqn:Hlive.
  2: { rewrite (validateOTP_notFound st Hst now email inputOTP Hlive).
       split; [|reflexivity].
       split; [discriminate|intros [H _]; discriminate H]. }
  destruct (Z_gt_le_dec (now - to_number (OTPData.otpGeneratedAt data))
              OTP_CONFIG.VALIDITY_MS) as [Hexp|Hexp].
  { rewrite (validateOTP_expired st Hst now email inputOTP Hlive Hexp).
    split; [|reflexivity].
    split; [discriminate|]. intros (_ & H & _). fold data in Hexp. lia. }
  destruct (hasExceededMaxAttempts now (OTPData.attempts data)) eqn:Hcap.
  { rewrite (validateOTP_throttled st Hst now email inputOTP Hlive Hexp Hcap).
    apply hasExceededMaxAttempts_spec in Hcap.
    split; [|reflexivity].
    split; [discriminate|]. intros (_ & _ & H & _). lia. }
  apply hasExceededMaxAttempts_false in Hcap as Hcount.
  split; [|intros Hover; lia].
  destruct (strict_eq (OTPData.currentOTP data) inputOTP) eqn:Heq.
  - rewrite (validateOTP_match st Hst now email inputOTP Hlive Hexp Hcap Heq).
    apply strict_eq_true in Heq. simpl. tauto.
  - rewrite (validateOTP_mismatch st Hst now email inputOTP Hlive Hexp Hcap Heq).
    split.
    + simpl. unfold outcome. simpl.
      destruct (hasExceededMaxAttempts now (_ ++ _)); discriminate.
    + intros (_ & _ & _ & H). apply strict_eq_true in H. congruence.
Qed.

(** With four wrong codes in the last hour the right code is accepted; with
    five it is refused; and once the five are 60 minutes old the code,
    requested anew, is accepted again. *)
Lemma validateOTP_valid_iff_witness :
  outcome (validateOTP 2004 Scenario.user "123456" Scenario.afterFourWrong).1
  = Some Valid
  /\ Validation.valid
       (validateOTP 2005 Scenario.user "123456" Scenario.afterFiveWrong).1
     = false
  /\ outcome
       (validateOTP 3602005 Scenario.user "223456"
          (generateOTPForEmail 3602004 123456 Scenario.user
             Scenario.afterFiveWrong).2).1
     = Some Valid.
Proof.
  assert (Hfour : otpRecord Scenario.afterFourWrong Scenario.user
                  = OTPData.mk Scenario.user
                      (map (fun t => Attempt.mk "000000" t false
                                       (Some "invalid"))
                         [2000; 2001; 2002; 2003])
                      (Some "123456") (Some 1000)) by reflexivity.
  assert (Hfive : otpRecord Scenario.afterFiveWrong Scenario.user
                  = OTPData.mk Scenario.user
                      (map (fun t => Attempt.mk "000000" t false
                                       (Some "invalid"))
                         [2000; 2001; 2002; 2003; 2004])
                      (Some "123456") (Some 1000)) by reflexivity.
  assert (Hanew : otpRecord
                    (generateOTPForEmail 3602004 123456 Scenario.user
                       Scenario.afterFiveWrong).2 Scenario.user
                  = OTPData.mk Scenario.user
                      (map (fun t => Attempt.mk "000000" t false
                                       (Some "invalid"))
                         [2000; 2001; 2002; 2003; 2004])
                      (Some "223456") (Some 3602004)) by reflexivity.
  split; [|split].
  - apply (validateOTP_valid_iff Scenario.afterFourWrong 2004 Scenario.user
             "123456" eq_refl).
    rewrite Hfour. repeat split. discriminate.
  - apply (validateOTP_valid_iff Scenario.afterFiveWrong 2005 Scenario.user
             "123456" eq_refl).
    rewrite Hfive. discriminate.
  - apply (validateOTP_valid_iff
             (generateOTPForEmail 3602004 123456 Scenario.user
                Scenario.afterFiveWrong).2
             3602005 Scenario.user "223456" eq_refl).
    rewrite Hanew. repeat split; discriminate.
Defined.

(* ================================================================== *)
(** ** Remaining attempts *)

Lemma getRemainingAttempts_healthy (st : AsyncStorage.t) (now : Z)
    (email : string) :
  healthy st ->
  getRemainingAttempts now email st
  = (Z.max 0 (5 - recentCount now (OTPData.attempts (otpRecord st email))), st).
Proof.
  intros Hst. unfold getRemainingAttempts, bind.
  now rewrite (getOTPData_healthy st Hst).
Qed.

Lemma recentCount_snoc (now : Z) (l : list Attempt.t) (a : Attempt.t) :
  Attempt.timestamp a = now ->
  recentCount now (l ++ [a]) = recentCount now l + 1.
Proof.
  intros Ha. unfold recentCount. rewrite cleanOldAttempts_app, length_app.
  unfold cleanOldAttempts at 2. simpl. rewrite Ha, Z.sub_diag. simpl. lia.
Qed.

(** X4: [getRemainingAttempts] reads without writing; its answer lies
    between 0 and 5, is five minus the attempts in the rolling window floored
    at zero, and is zero exactly when [generateOTPForEmail] would refuse
    with its throttling error. *)
Theorem getRemainingAttempts_spec (st : AsyncStorage.t) (now draw : Z)
    (email : string) :
  healthy st ->
  let remaining := (getRemainingAttempts now email st).1 in
  (getRemainingAttempts now email st).2 = st
  /\ 0 <= remaining <= 5
  /\ remaining
     = Z.max 0 (5 - recentCount now (OTPData.attempts (otpRecord st email)))
  /\ (remaining = 0
      <-> throttledError (generateOTPForEmail now draw email st).1).
Proof.
  intros Hst. cbv zeta. rewrite (getRemainingAttempts_healthy st now email Hst).
  cbn [fst snd].
  pose proof (recentCount_nonneg now (OTPData.attempts (otpRecord st email))).
  split; [reflexivity|]. split; [lia|]. split; [reflexivity|].
  destruct (hasExceededMaxAttempts now
              (OTPData.attempts (otpRecord st email))) eqn:Hcap.
  - rewrite (generateOTPForEmail_throttled st Hst now email draw Hcap).
    apply hasExceededMaxAttempts_spec in Hcap.
    split; [intros _; split; reflexivity|lia].
  - rewrite (generateOTPForEmail_issued st Hst now email draw Hcap).
    apply hasExceededMaxAttempts_false in Hcap.
    split; [lia|intros [Hfail _]; discriminate Hfail].
Qed.

Lemma getRemainingAttempts_spec_witness :
  (getRemainingAttempts 2005 Scenario.user Scenario.afterFiveWrong).1 = 0
  /\ (getRemainingAttempts 2004 Scenario.user Scenario.afterFourWrong).1 = 1.
Proof.
  destruct (getRemainingAttempts_spec Scenario.afterFiveWrong 2005 0
              Scenario.user eq_refl) as (_ & _ & H5 & _).
  destruct (getRemainingAttempts_spec Scenario.afterFourWrong 2004 0
              Scenario.user eq_refl) as (_ & _ & H4 & _).
  split; [exact H5|exact H4].
Defined.

(** A logged attempt carries the submitted code and the instant of the
    call. *)
Lemma validateOTP_logged_attempt (st : AsyncStorage.t) (now : Z)
    (email inputOTP : string) (a : Attempt.t) :
  healthy st ->
  OTPData.attempts (otpRecord (validateOTP now email inputOTP st).2 email)
  = OTPData.attempts (otpRecord st email) ++ [a] ->
  exists success reason, a = Attempt.mk inputOTP now success reason.
Proof.
  intros Hst Hlog.
  assert (Hstuck : forall l : list Attempt.t, l <> l ++ [a]).
  { intros l Heq. apply (f_equal (@length _)) in Heq.
    rewrite length_app in Heq. simpl in Heq. lia. }
  destruct (validateOTP_verdict st now email inputOTP Hst)
    as [_ _ Hs|_ _ Hl|_ _ _ Hs|_ _ _ Hl|_ _ _ Hl].
  - rewrite Hs in Hlog. now apply Hstuck in Hlog.
  - rewrite Hl in Hlog. apply app_inj_tail in Hlog as [_ <-]. eauto.
  - rewrite Hs in Hlog. now apply Hstuck in Hlog.
  - rewrite Hl in Hlog. apply app_inj_tail in Hlog as [_ <-]. eauto.
  - rewrite Hl in Hlog. apply app_inj_tail in Hlog as [_ <-]. eauto.
Qed.

(** X5: every attempt [validateOTP] logs costs one remaining attempt: when
    the call is answered Valid, Invalid or Expired, or Throttled by the
    re-check, the count of attempts in the window seen at the same instant
    grows by one, so a remaining count of [n > 0] becomes [n - 1]. *)
Theorem validateOTP_costs_one_attempt (st : AsyncStorage.t) (now : Z)
    (email inputOTP : string) (a : Attempt.t) :
  healthy st ->
  let st' := (validateOTP now email inputOTP st).2 in
  OTPData.attempts (otpRecord st' email)
  = OTPData.attempts (otpRecord st email) ++ [a] ->
  recentCount now (OTPData.attempts (otpRecord st' email))
  = recentCount now (OTPData.attempts (otpRecord st email)) + 1
  /\ (getRemainingAttempts now email st').1
     = Z.max 0 ((getRemainingAttempts now email st).1 - 1).
Proof.
  intros Hst st' Hlog.
  assert (Hst' : healthy st') by apply (validateOTP_keeps_healthy st Hst).
  assert (Hnow : Attempt.timestamp a = now).
  { destruct (validateOTP_logged_attempt st now email inputOTP a Hst Hlog)
      as (success & reason & ->). reflexivity. }
  rewrite (getRemainingAttempts_healthy st' now email Hst'),
    (getRemainingAttempts_healthy st now email Hst).
  rewrite Hlog, (recentCount_snoc now _ a Hnow). cbn [fst].
  pose proof (recentCount_nonneg now (OTPData.attempts (otpRecord st email))).
  split; lia.
Qed.

Lemma validateOTP_costs_one_attempt_witness :
  (getRemainingAttempts 2004 Scenario.user
     (validateOTP 2004 Scenario.user "000000" Scenario.afterFourWrong).2).1
  = 0.
Proof.
  apply (validateOTP_costs_one_attempt Scenario.afterFourWrong 2004
           Scenario.user "000000"
           (Attempt.mk "000000" 2004 false (Some "invalid")) eq_refl eq_refl).
Defined.

(* ================================================================== *)
(** ** Liveness of a code *)

Lemma isOTPValid_healthy (st : AsyncStorage.t) (now : Z) (email : string) :
  healthy st ->
  isOTPValid now email st
  = (live (otpRecord st email)
     && (now - to_number (OTPData.otpGeneratedAt (otpRecord st email))
         <=? OTP_CONFIG.VALIDITY_MS), st).
Proof.
  intros Hst. unfold isOTPValid, bind.
  rewrite (getOTPData_healthy st Hst). unfold live.
  rewrite <- Bool.negb_andb.
  now destruct (truthy_opt_string _ && truthy_opt_number _).
Qed.

(** X6: [isOTPValid] and [validateOTP] draw the same line: at one instant,
    [isOTPValid] holds exactly when [validateOTP] would answer neither
    NotFound nor Expired (whatever code is submitted); and [isOTPValid]
    writes nothing. *)
Theorem isOTPValid_agrees (st : AsyncStorage.t) (now : Z)
    (email inputOTP : string) :
  healthy st ->
  (isOTPValid now email st).2 = st
  /\ ((isOTPValid now email st).1 = true
      <-> (outcome (validateOTP now email inputOTP st).1 <> Some NotFound
           /\ outcome (validateOTP now email inputOTP st).1 <> Some Expired)).
Proof.
  intros Hst. rewrite (isOTPValid_healthy st now email Hst). cbn [fst snd].
  split; [reflexivity|].
  destruct (live (otpRecord st email)) eqn:Hlive.
  2: { rewrite (validateOTP_notFound st Hst now email inputOTP Hlive). simpl.
       split; [discriminate|]. intros [H _]. now contradiction H. }
  destruct (Z_gt_le_dec
              (now - to_number (OTPData.otpGeneratedAt (otpRecord st email)))
              OTP_CONFIG.VALIDITY_MS) as [Hexp|Hexp].
  { rewrite (validateOTP_expired st Hst now email inputOTP Hlive Hexp). simpl.
    split; [|intros [_ H]; now contradiction H].
    intros H. apply Z.leb_le in H. lia. }
  simpl. split; [intros _|intros _; apply Z.leb_le; exact Hexp].
  destruct (validateOTP_verdict st now email inputOTP Hst)
    as [H _ _|_ Ho Hl|_ _ Ho _|_ _ Ho _|_ _ Ho _].
  - congruence.
  - exfalso.
    destruct (hasExceededMaxAttempts now (OTPData.attempts (otpRecord st email)))
      eqn:Hcap.
    + rewrite (validateOTP_throttled st Hst now email inputOTP Hlive Hexp Hcap)
        in Ho. discriminate Ho.
    + destruct (strict_eq (OTPData.currentOTP (otpRecord st email)) inputOTP)
        eqn:Heq.
      * rewrite (validateOTP_match st Hst now email inputOTP
                   Hlive Hexp Hcap Heq) in Ho. discriminate Ho.
      * rewrite (validateOTP_mismatch st Hst now email inputOTP
                   Hlive Hexp Hcap Heq) in Ho.
        simpl in Ho. destruct (hasExceededMaxAttempts now (_ ++ _));
          discriminate Ho.
  - rewrite Ho. split; discriminate.
  - rewrite Ho. split; discriminate.
  - rewrite Ho.
    destruct (hasExceededMaxAttempts now
                (OTPData.attempts (otpRecord (validateOTP _ _ _ _).2 _)));
      split; discriminate.
Qed.

Lemma isOTPValid_agrees_witness :
  (isOTPValid 601000 Scenario.user Scenario.afterRequest).1 = true
  /\ (isOTPValid 601001 Scenario.user Scenario.afterRequest).1 = false.
Proof.
  split.
  - apply (isOTPValid_agrees Scenario.afterRequest 601000 Scenario.user
             "123456" eq_refl).
    split; discriminate.
  - destruct (isOTPValid_agrees Scenario.afterRequest 601001 Scenario.user
                "123456" eq_refl) as [_ H].
    destruct ((isOTPValid 601001 Scenario.user Scenario.afterRequest).1);
      [|reflexivity].
    destruct (proj1 H eq_refl) as [_ Hne]. now contradiction Hne.
Defined.

(* ================================================================== *)
(** ** Requesting a code again *)

Lemma otpRecords_putOtpRecord_ne (st : AsyncStorage.t) (email other : string)
    (data : OTPData.t) :
  toLowerCase other <> toLowerCase email ->
  otpRecords (putOtpRecord email data st) !! toLowerCase other
  = otpRecords st !! toLowerCase other.
Proof.
  intros Hne. unfold putOtpRecord, otpRecords at 1. simpl.
  apply lookup_insert_ne. congruence.
Qed.

(** X7: a request that is issued overwrites the live code of the e-mail and
    nothing else: the record keeps its attempts, the records of other
    e-mails, the accounts, the sessions and the event log stay as they
    were; and from then on no code other than the new one is accepted. *)
Theorem generateOTPForEmail_replaces_code (st : AsyncStorage.t) (now draw : Z)
    (email : string) :
  healthy st ->
  OtpResult.success (generateOTPForEmail now draw email st).1 = true ->
  let st' := (generateOTPForEmail now draw email st).2 in
  otpRecord st' email
  = OTPData.mk (OTPData.email (otpRecord st email))
      (OTPData.attempts (otpRecord st email))
      (Some (generateOTP draw)) (Some now)
  /\ (forall other : string,
        toLowerCase other <> toLowerCase email ->
        otpRecords st' !! toLowerCase other
        = otpRecords st !! toLowerCase other)
  /\ AsyncStorage.parents st' = AsyncStorage.parents st
  /\ AsyncStorage.sessions st' = AsyncStorage.sessions st
  /\ AsyncStorage.analytics st' = AsyncStorage.analytics st
  /\ (forall (t : Z) (old : string),
        old <> generateOTP draw ->
        outcome (validateOTP t email old st').1 <> Some Valid).
Proof.
  intros Hst Hok. cbv zeta.
  destruct (hasExceededMaxAttempts now (OTPData.attempts (otpRecord st email)))
    eqn:Hcap.
  { rewrite (generateOTPForEmail_throttled st Hst now email draw Hcap) in Hok.
    discriminate Hok. }
  rewrite (generateOTPForEmail_issued st Hst now email draw Hcap). cbn [snd].
  set (issued := OTPData.mk _ _ _ _).
  split; [apply (otpRecord_put st)|].
  split; [intros other Hne; now apply otpRecords_putOtpRecord_ne|].
  repeat (split; [reflexivity|]).
  intros t old Hold Hvalid.
  apply (valid_outcome_iff (putOtpRecord email issued st) t email old)
    in Hvalid as (_ & _ & _ & Hcode); [|exact Hst].
  rewrite (otpRecord_put st) in Hcode. simpl in Hcode. congruence.
Qed.

Lemma generateOTPForEmail_replaces_code_witness :
  let st' := (generateOTPForEmail 5000 65432 Scenario.user
                Scenario.afterRequest).2 in
  OTPData.currentOTP (otpRecord st' Scenario.user) = Some "165432"
  /\ outcome (validateOTP 5001 Scenario.user "123456" st').1 <> Some Valid.
Proof.
  destruct (generateOTPForEmail_replaces_code Scenario.afterRequest 5000 65432
              Scenario.user eq_refl eq_refl) as (H1 & _ & _ & _ & _ & H2).
  cbv zeta. split.
  - now rewrite H1.
  - apply H2. discriminate.
Defined.

(** X8: [validateOTP] touches nothing but the record of its e-mail, and in
    that record only the attempts and, on success, the code: the records of
    other e-mails, the accounts, the sessions and the event log are left as
    they were, whatever the outcome. *)
Theorem validateOTP_frame (st : AsyncStorage.t) (now : Z)
    (email inputOTP : string) :
  healthy st ->
  let st' := (validateOTP now email inputOTP st).2 in
  (forall other : string,
     toLowerCase other <> toLowerCase email ->
     otpRecords st' !! toLowerCase other = otpRecords st !! toLowerCase other)
  /\ AsyncStorage.parents st' = AsyncStorage.parents st
  /\ AsyncStorage.sessions st' = AsyncStorage.sessions st
  /\ AsyncStorage.analytics st' = AsyncStorage.analytics st
  /\ OTPData.email (otpRecord st' email) = OTPData.email (otpRecord st email)
  /\ (outcome (validateOTP now email inputOTP st).1 <> Some Valid ->
      OTPData.currentOTP (otpRecord st' email)
      = OTPData.currentOTP (otpRecord st email)
      /\ OTPData.otpGeneratedAt (otpRecord st' email)
         = OTPData.otpGeneratedAt (otpRecord st email)).
Proof.
  intros Hst. cbv zeta.
  destruct (live (otpRecord st email)) eqn:Hlive.
  2: { rewrite (validateOTP_notFound st Hst now email inputOTP Hlive).
       cbn [fst snd]. tauto. }
  destruct (Z_gt_le_dec
              (now - to_number (OTPData.otpGeneratedAt (otpRecord st email)))
              OTP_CONFIG.VALIDITY_MS) as [Hexp|Hexp].
  { rewrite (validateOTP_expired st Hst now email inputOTP Hlive Hexp).
    cbn [fst snd]. rewrite (otpRecord_put st).
    split; [intros other Hne; now apply otpRecords_putOtpRecord_ne|].
    simpl. tauto. }
  destruct (hasExceededMaxAttempts now (OTPData.attempts (otpRecord st email)))
    eqn:Hcap.
  { rewrite (validateOTP_throttled st Hst now email inputOTP Hlive Hexp Hcap).
    cbn [fst snd]. tauto. }
  destruct (strict_eq (OTPData.currentOTP (otpRecord st email)) inputOTP)
    eqn:Heq.
  - rewrite (validateOTP_match st Hst now email inputOTP Hlive Hexp Hcap Heq).
    cbn [fst snd]. rewrite (otpRecord_put st).
    split; [intros other Hne; now apply otpRecords_putOtpRecord_ne|].
    simpl. repeat (split; [reflexivity|]). intros H. now contradiction H.
  - rewrite (validateOTP_mismatch st Hst now email inputOTP Hlive Hexp Hcap Heq).
    cbn [fst snd]. rewrite (otpRecord_put st).
    split; [intros other Hne; now apply otpRecords_putOtpRecord_ne|].
    simpl. tauto.
Qed.

Lemma validateOTP_frame_witness :
  AsyncStorage.sessions
    (validateOTP 9000 Scenario.user "000000" Scenario.signedUp).2
  = AsyncStorage.sessions Scenario.signedUp.
Proof.
  apply (validateOTP_frame Scenario.signedUp 9000 Scenario.user "000000"
           eq_refl).
Defined.

(* ================================================================== *)
(** ** Decimal digits *)

Lemma string_of_uint_length (d : Decimal.uint) :
  String.length (NilEmpty.string_of_uint d) = Decimal.nb_digits d.
Proof. induction d; simpl; congruence. Qed.

Lemma string_of_uint_digits (d : Decimal.uint) :
  all_chars is_digit (NilEmpty.string_of_uint d) = true.
Proof. unfold all_chars. induction d; simpl; auto. Qed.

Lemma of_uint_acc_bounds (d : Decimal.uint) :
  forall acc : positive,
    Z.pos acc * 10 ^ Z.of_nat (Decimal.nb_digits d)
    <= Z.pos (Pos.of_uint_acc d acc)
    < (Z.pos acc + 1) * 10 ^ Z.of_nat (Decimal.nb_digits d).
Proof.
  induction d as [|d IH|d IH|d IH|d IH|d IH|d IH|d IH|d IH|d IH|d IH];
    intros acc; cbn [Pos.of_uint_acc Decimal.nb_digits];
    [simpl; lia|..];
    rewrite Nat2Z.inj_succ, Z.pow_succ_r by lia;
    match goal with |- context [Pos.of_uint_acc d ?a] => specialize (IH a) end;
    assert (0 < 10 ^ Z.of_nat (Decimal.nb_digits d))
      by (apply Z.pow_pos_nonneg; lia);
    nia.
Qed.

Lemma nzhead_not_D0 (d x : Decimal.uint) : Decimal.nzhead d <> Decimal.D0 x.
Proof. induction d; simpl; try discriminate. exact IHd. Qed.

(** The digits of a positive number start with a non-zero digit. *)
Lemma to_uint_head (p : positive) :
  match Pos.to_uint p with
  | Decimal.Nil | Decimal.D0 _ => False
  | _ => True
  end.
Proof.
  pose proof (DecimalPos.Unsigned.to_of (Pos.to_uint p)) as Hnorm.
  rewrite DecimalPos.Unsigned.of_to in Hnorm. simpl in Hnorm.
  pose proof (DecimalPos.Unsigned.to_uint_nonnil p) as Hnil.
  pose proof (DecimalPos.Unsigned.to_uint_nonzero p) as Hzero.
  destruct (Pos.to_uint p) as [|d| | | | | | | | |]; try exact I.
  - now apply Hnil.
  - rewrite DecimalFacts.unorm_D0 in Hnorm. unfold Decimal.unorm in Hnorm.
    destruct (Decimal.nzhead d) eqn:Hd; try discriminate Hnorm.
    + injection Hnorm as ->. now apply Hzero.
    + now apply nzhead_not_D0 in Hd.
Qed.

Lemma six_digits (p : positive) :
  100000 <= Z.pos p < 1000000 -> Decimal.nb_digits (Pos.to_uint p) = 6%nat.
Proof.
  intros Hrange.
  pose proof (DecimalPos.Unsigned.of_to p) as Hval.
  pose proof (to_uint_head p) as Hhead.
  assert (Hpow : forall n : nat,
             (n <= 4)%nat \/ n = 5%nat \/ (6 <= n)%nat).
  { intros n. lia. }
  assert (Hlow : forall n : nat, (n <= 4)%nat -> 10 ^ Z.of_nat n <= 10 ^ 4)
    by (intros n Hn; apply Z.pow_le_mono_r; lia).
  assert (Hhigh : forall n : nat, (6 <= n)%nat -> 10 ^ 6 <= 10 ^ Z.of_nat n)
    by (intros n Hn; apply Z.pow_le_mono_r; lia).
  destruct (Pos.to_uint p) as [|d|d|d|d|d|d|d|d|d|d]; try contradiction;
    cbn [Pos.of_uint] in Hval; injection Hval as Hval;
    match type of Hval with Pos.of_uint_acc d ?a = _ =>
      pose proof (of_uint_acc_bounds d a) as Hb end;
    rewrite Hval in Hb; cbn [Decimal.nb_digits];
    destruct (Hpow (Decimal.nb_digits d)) as [Hn|[Hn|Hn]];
    [apply Hlow in Hn; lia|now rewrite Hn|apply Hhigh in Hn; lia
    |apply Hlow in Hn; lia|now rewrite Hn|apply Hhigh in Hn; lia
    |apply Hlow in Hn; lia|now rewrite Hn|apply Hhigh in Hn; lia
    |apply Hlow in Hn; lia|now rewrite Hn|apply Hhigh in Hn; lia
    |apply Hlow in Hn; lia|now rewrite Hn|apply Hhigh in Hn; lia
    |apply Hlow in Hn; lia|now rewrite Hn|apply Hhigh in Hn; lia
    |apply Hlow in Hn; lia|now rewrite Hn|apply Hhigh in Hn; lia
    |apply Hlow in Hn; lia|now rewrite Hn|apply Hhigh in Hn; lia
    |apply Hlow in Hn; lia|now rewrite Hn|apply Hhigh in Hn; lia].
Qed.

Lemma decimal_injective (a b : Z) : decimal a = decimal b -> a = b.
Proof.
  unfold decimal. intros H.
  assert (Hnn : forall z : Z,
             Z.to_int z <> Decimal.Pos Decimal.Nil
             /\ Z.to_int z <> Decimal.Neg Decimal.Nil).
  { intros [|p|p]; simpl; split; try discriminate;
      intros [= Hp]; now apply DecimalPos.Unsigned.to_uint_nonnil in Hp. }
  apply (f_equal NilZero.int_of_string) in H.
  rewrite !NilZero.isi in H by apply Hnn.
  injection H as H. now apply DecimalZ.to_int_inj.
Qed.

(** X9: for every draw [Math.floor(Math.random() * 900000)] can give,
    [generateOTP] returns exactly [OTP_CONFIG.LENGTH] = 6 characters, all of
    them decimal digits, and two different draws give two different
    codes. *)
Theorem generateOTP_six_digits (draw draw' : Z) :
  0 <= draw < 900000 ->
  Z.of_nat (String.length (generateOTP draw)) = OTP_CONFIG.LENGTH
  /\ all_chars is_digit (generateOTP draw) = true
  /\ (generateOTP draw = generateOTP draw' <-> draw = draw').
Proof.
  intros Hdraw. unfold generateOTP.
  split; [|split].
  - unfold decimal. destruct (100000 + draw) as [|p|p] eqn:Hp; try lia.
    simpl. pose proof (to_uint_head p) as Hhead.
    pose proof (six_digits p ltac:(lia)) as Hsix.
    destruct (Pos.to_uint p) eqn:Hd; try contradiction;
      cbn [NilZero.string_of_uint]; rewrite string_of_uint_length, Hsix;
      reflexivity.
  - unfold decimal. destruct (100000 + draw) as [|p|p] eqn:Hp; try lia.
    simpl. pose proof (to_uint_head p) as Hhead.
    destruct (Pos.to_uint p) eqn:Hd; try contradiction;
      cbn [NilZero.string_of_uint]; apply string_of_uint_digits.
  - split; [|now intros ->].
    intros H. apply decimal_injective in H. lia.
Qed.

Lemma generateOTP_six_digits_witness :
  Z.of_nat (String.length (generateOTP 23456)) = OTP_CONFIG.LENGTH.
Proof. apply (generateOTP_six_digits 23456 0). lia. Defined.

(* ================================================================== *)
(** ** Tokens *)

Lemma append_inj_l (a x y : string) : a +:+ x = a +:+ y -> x = y.
Proof. induction a as [|c a IH]; simpl; [trivial|]. intros [= H]. auto. Qed.

(** Two strings free of a separator, each followed by the separator and a
    tail, are equal only piece by piece. *)
Lemma separator_unique (sep : ascii) (x y s1 s2 : string) :
  all_chars (fun c => negb (Ascii.eqb c sep)) x = true ->
  all_chars (fun c => negb (Ascii.eqb c sep)) y = true ->
  x +:+ String sep s1 = y +:+ String sep s2 -> x = y /\ s1 = s2.
Proof.
  unfold all_chars. revert y.
  induction x as [|c x IH]; intros [|d y]; simpl; intros Hx Hy Heq.
  - injection Heq as ->. now split.
  - injection Heq as <- _. apply andb_prop in Hy as [Hd _].
    now rewrite Ascii.eqb_refl in Hd.
  - injection Heq as -> _. apply andb_prop in Hx as [Hc _].
    now rewrite Ascii.eqb_refl in Hc.
  - injection Heq as -> Heq.
    apply andb_prop in Hx as [_ Hx]. apply andb_prop in Hy as [_ Hy].
    destruct (IH y Hx Hy Heq) as [-> ->]. now split.
Qed.

Lemma string_of_uint_no_underscore (d : Decimal.uint) :
  all_chars (fun c => negb (Ascii.eqb c "_")) (NilEmpty.string_of_uint d)
  = true.
Proof. unfold all_chars. induction d; simpl; auto. Qed.

Lemma decimal_no_underscore (n : Z) :
  all_chars (fun c => negb (Ascii.eqb c "_")) (decimal n) = true.
Proof.
  unfold decimal.
  assert (H : forall d, all_chars (fun c => negb (Ascii.eqb c "_"))
                          (NilZero.string_of_uint d) = true).
  { intros d. destruct d; try apply string_of_uint_no_underscore.
    reflexivity. }
  destruct (Z.to_int n) as [d|d]; simpl; [apply H|].
  unfold all_chars in *. simpl. apply H.
Qed.

(** X10: the tokens [generateTokens] builds determine the instant and the
    random suffix they were built from, so tokens generated at different
    instants, or with different suffixes, differ; an access token is never
    equal to a refresh token; and no token is the empty string. *)
Theorem generateTokens_injective (now now' : Z) (a a' r r' : string) :
  ((generateTokens now a r).1 = (generateTokens now' a' r').1
   <-> now = now' /\ a = a')
  /\ ((generateTokens now a r).2 = (generateTokens now' a' r').2
      <-> now = now' /\ r = r')
  /\ (generateTokens now a r).1 <> (generateTokens now' a' r').2
  /\ truthy_string (generateTokens now a r).1 = true
  /\ truthy_string (generateTokens now a r).2 = true.
Proof.
  unfold generateTokens. cbn [fst snd].
  repeat split; try (intros [-> ->]; reflexivity); try discriminate.
  - apply (append_inj_l "access_") in H.
    apply separator_unique in H as [H _]; try apply decimal_no_underscore.
    now apply decimal_injective.
  - apply (append_inj_l "access_") in H.
    now apply separator_unique in H as [_ H]; try apply decimal_no_underscore.
  - apply (append_inj_l "refresh_") in H.
    apply separator_unique in H as [H _]; try apply decimal_no_underscore.
    now apply decimal_injective.
  - apply (append_inj_l "refresh_") in H.
    now apply separator_unique in H as [_ H]; try apply decimal_no_underscore.
Qed.

(* ================================================================== *)
(** ** The device fingerprint *)

Lemma toInt32_congruent (a b k : Z) :
  a = b + k * 2 ^ 32 -> toInt32 a = toInt32 b.
Proof.
  intros ->. unfold toInt32.
  replace (b + k * 2 ^ 32 + 2 ^ 31) with (b + 2 ^ 31 + k * 2 ^ 32) by ring.
  now rewrite Z_mod_plus_full.
Qed.

Lemma toInt32_offset (x : Z) : exists k : Z, toInt32 x = x + k * 2 ^ 32.
Proof.
  exists (- ((x + 2 ^ 31) / 2 ^ 32)). unfold toInt32.
  rewrite Zmod_eq_full by lia. ring.
Qed.

Lemma toInt32_range (x : Z) : - 2 ^ 31 <= toInt32 x < 2 ^ 31.
Proof.
  unfold toInt32. pose proof (Z.mod_pos_bound (x + 2 ^ 31) (2 ^ 32)). lia.
Qed.

Lemma fingerprint_fold (cs : list ascii) :
  forall h g : Z,
    toInt32 h = toInt32 g ->
    toInt32
      (fold_left
         (fun hash char =>
            let hash := toInt32 (Z.shiftl hash 5) - hash
                        + Z.of_nat (nat_of_ascii char) in
            toInt32 (Z.land hash hash)) cs h)
    = toInt32
        (fold_left (fun h c => 31 * h + Z.of_nat (nat_of_ascii c)) cs g).
Proof.
  induction cs as [|c cs IH]; intros h g Hhg; simpl; [exact Hhg|].
  apply IH. rewrite Z.land_diag, Z.shiftl_mul_pow2 by lia.
  destruct (toInt32_offset (h * 2 ^ 5)) as [k1 ->].
  destruct (toInt32_offset (h * 2 ^ 5 + k1 * 2 ^ 32 - h
                            + Z.of_nat (nat_of_ascii c))) as [k2 ->].
  destruct (toInt32_offset h) as [k3 Hh].
  destruct (toInt32_offset g) as [k4 Hg].
  apply (toInt32_congruent _ _ (k1 + k2 + 31 * (k4 - k3))).
  rewrite Hh, Hg in Hhg. lia.
Qed.

(** X11: the shift, subtract and mask loop of [generateDeviceFingerprint]
    computes the base-31 polynomial hash of the string
    [userAgent_screen_now], reduced to a signed 32-bit integer; the
    fingerprint is ["device_"] followed by the base-36 digits of its
    absolute value, which is at most [2^31]. *)
Theorem generateDeviceFingerprint_hash (env : Env) (now : Z) :
  let str := userAgent env +:+ "_" +:+ screenInfo env +:+ "_" +:+ decimal now in
  let hash := toInt32 (polynomialHash (list_ascii_of_string str)) in
  generateDeviceFingerprint env now = "device_" +:+ toString36 (Z.abs hash)
  /\ 0 <= Z.abs hash <= 2 ^ 31.
Proof.
  cbv zeta. split.
  - unfold generateDeviceFingerprint, polynomialHash. do 2 f_equal.
    set (cs := list_ascii_of_string _).
    assert (Hfold := fingerprint_fold cs 0 0 eq_refl).
    rewrite <- Hfold. clear Hfold.
    assert (Hid : forall l h, - 2 ^ 31 <= h < 2 ^ 31 ->
              toInt32
                (fold_left
                   (fun hash char =>
                      let hash := toInt32 (Z.shiftl hash 5) - hash
                                  + Z.of_nat (nat_of_ascii char) in
                      toInt32 (Z.land hash hash)) l h)
              = fold_left
                  (fun hash char =>
                     let hash := toInt32 (Z.shiftl hash 5) - hash
                                 + Z.of_nat (nat_of_ascii char) in
                     toInt32 (Z.land hash hash)) l h).
    { induction l as [|c l IHl]; intros h Hh; simpl.
      - unfold toInt32. rewrite Z.mod_small by lia. lia.
      - apply IHl, toInt32_range. }
    rewrite Hid by lia. reflexivity.
  - pose proof (toInt32_range
                  (polynomialHash
                     (list_ascii_of_string
                        (userAgent env +:+ "_" +:+ screenInfo env +:+ "_"
                         +:+ decimal now)))). lia.
Qed.

(* ================================================================== *)
(** ** A rejected read inside a save *)

(** X12: [save] and [delete] of the record stores read the whole object,
    change one key and write the object back; when that read is rejected and
    the write goes through, the object written holds the one new record (or
    nothing), every other record of the namespace is lost, and the operation
    still reports success. *)
Theorem save_after_rejected_read (st : AsyncStorage.t) (fs : list bool)
    (email : string) (data : OTPData.t) (parent : Parent.t)
    (session : Session.t) :
  AsyncStorage.faults st = true :: false :: fs ->
  otpStorage.save email data st
  = (true, AsyncStorage.with_faults fs
             (write STORAGE_KEYS.OTP_DATA
                (Some {[toLowerCase email := data]}) st))
  /\ parentStorage.save parent st
     = (true, AsyncStorage.with_faults fs
                (write STORAGE_KEYS.PARENTS
                   (Some {[toLowerCase (Parent.email parent) := parent]}) st))
  /\ sessionStorage.save session st
     = (true, AsyncStorage.with_faults fs
                (write STORAGE_KEYS.SESSIONS
                   (Some [(Session.accessToken session, session)]) st))
  /\ otpStorage.delete email st
     = (true, AsyncStorage.with_faults fs
                (write STORAGE_KEYS.OTP_DATA (Some ∅) st))
  /\ sessionStorage.delete (Session.accessToken session) st
     = (true, AsyncStorage.with_faults fs
                (write STORAGE_KEYS.SESSIONS (Some []) st)).
Proof.
  intros Hfs. destruct st as [p s o a f]. simpl in Hfs. subst f.
  repeat split.
Qed.

Lemma save_after_rejected_read_witness :
  let st := AsyncStorage.with_faults [true; false] Scenario.signedUp in
  is_Some (otpRecords st !! Scenario.user)
  /\ otpRecords (otpStorage.save "other@example.com"
                   (OTPData.mk "other@example.com" [] None None) st).2
     !! Scenario.user = None.
Proof.
  cbv zeta. split; [eexists; reflexivity|].
  destruct (save_after_rejected_read
              (AsyncStorage.with_faults [true; false] Scenario.signedUp) []
              "other@example.com"
              (OTPData.mk "other@example.com" [] None None)
              (Parent.mk "" 0 0 None None) Scenario.session eq_refl)
    as (H & _).
  rewrite H. reflexivity.
Defined.

(* ================================================================== *)
(** ** What each service leaves alone *)

Section Preserves.
Context {X : Type} (f : AsyncStorage.t -> X).
Hypothesis Hblind :
  forall (fs : list bool) (st : AsyncStorage.t),
    f (AsyncStorage.with_faults fs st) = f st.

Lemma preserves_ret {A : Type} (a : A) : preserves f (ret a).
Proof. intros st. reflexivity. Qed.

Lemma preserves_bind {A B : Type} (m : Async A) (k : A -> Async B) :
  preserves f m -> (forall a, preserves f (k a)) -> preserves f (bind m k).
Proof.
  intros Hm Hk st. unfold bind. specialize (Hm st).
  destruct (m st) as [a st1]. simpl in Hm. now rewrite (Hk a st1).
Qed.

Lemma preserves_next_fault : preserves f Native.next_fault.
Proof.
  intros st. unfold Native.next_fault.
  destruct (AsyncStorage.faults st); [reflexivity|apply Hblind].
Qed.

Lemma preserves_getItem {V : Type} (key : Key V) :
  preserves f (storageService.getItem key).
Proof.
  unfold storageService.getItem, Native.getItem.
  apply preserves_bind; [apply preserves_bind|].
  - apply preserves_next_fault.
  - intros []; [apply preserves_ret|intros st; reflexivity].
  - intros []; apply preserves_ret.
Qed.

Lemma preserves_setItem {V : Type} (key : Key V) (value : V) :
  (forall (v : option V) (st : AsyncStorage.t), f (write key v st) = f st) ->
  preserves f (storageService.setItem key value).
Proof.
  intros Hkey. unfold storageService.setItem, Native.setItem.
  apply preserves_bind; [apply preserves_bind|].
  - apply preserves_next_fault.
  - intros []; [apply preserves_ret|intros st; apply Hkey].
  - intros []; apply preserves_ret.
Qed.
End Preserves.

(** Walks through a service, one [await] at a time. *)
Ltac preserve :=
  repeat first
    [ apply preserves_ret
    | apply preserves_getItem; solve [intros; reflexivity]
    | apply preserves_setItem; solve [intros; reflexivity]
    | apply preserves_bind; [|intros ?]
    | match goal with
      | |- preserves _ (if ?c then _ else _) => destruct c
      | |- preserves _ (match ?x with _ => _ end) => destruct x
      | |- preserves _ (let '(_, _) := ?x in _) => destruct x
      end
    | progress cbv zeta ].

Ltac unfold_services :=
  unfold startSignup, completeSignup, getSession, refreshSession, signOut,
    getParentFromSession, updateParentProfile, trackEvent, getParent,
    generateOTPForEmail, validateOTP, getRemainingAttempts, isOTPValid,
    getOTPData, getEventsByName, getAllEvents, rotateRefreshToken,
    generateTokens,
    parentStorage.getByEmail, parentStorage.save, parentStorage.delete,
    parentStorage.getAll, otpStorage.getByEmail, otpStorage.save,
    otpStorage.delete, otpStorage.getAll, sessionStorage.getByToken,
    sessionStorage.save, sessionStorage.delete, sessionStorage.getAll,
    sessionStorage.getByDeviceFingerprint, analyticsStorage.addEvent,
    analyticsStorage.getAll.

(** X13: under any schedule of faults, the OTP engine writes only the OTP
    records, the session functions write only the sessions, and
    [startSignup] and [updateParentProfile] never write a session:
    [generateOTPForEmail] and [validateOTP] leave accounts, sessions and the
    event log as they were; [getSession], [refreshSession] and [signOut]
    leave accounts, OTP records and the event log as they were. *)
Theorem services_keep_to_their_namespace (env : Env) (now draw : Z)
    (suffixA suffixR email code token : string) (profile : ProfileData.t) :
  (preserves AsyncStorage.parents (generateOTPForEmail now draw email)
   /\ preserves AsyncStorage.sessions (generateOTPForEmail now draw email)
   /\ preserves AsyncStorage.analytics (generateOTPForEmail now draw email))
  /\ (preserves AsyncStorage.parents (validateOTP now email code)
      /\ preserves AsyncStorage.sessions (validateOTP now email code)
      /\ preserves AsyncStorage.analytics (validateOTP now email code))
  /\ (preserves AsyncStorage.parents (getSession now token)
      /\ preserves AsyncStorage.otp_data (getSession now token)
      /\ preserves AsyncStorage.analytics (getSession now token))
  /\ (preserves AsyncStorage.parents (refreshSession now suffixA suffixR token)
      /\ preserves AsyncStorage.otp_data
           (refreshSession now suffixA suffixR token)
      /\ preserves AsyncStorage.analytics
           (refreshSession now suffixA suffixR token))
  /\ (preserves AsyncStorage.parents (signOut token)
      /\ preserves AsyncStorage.otp_data (signOut token)
      /\ preserves AsyncStorage.analytics (signOut token))
  /\ (preserves AsyncStorage.parents (startSignup env now draw email)
      /\ preserves AsyncStorage.sessions (startSignup env now draw email))
  /\ (preserves AsyncStorage.sessions (updateParentProfile now email profile)
      /\ preserves AsyncStorage.otp_data
           (updateParentProfile now email profile)).
Proof.
  repeat split; unfold_services; preserve.
Qed.

(* ================================================================== *)
(** ** Starting and completing a signup *)

(** X14: an address [validateEmail] rejects stops [startSignup] before any
    OTP work: the call returns the validation error and, under any schedule
    of faults, leaves OTP records, accounts and sessions as they were. *)
Theorem startSignup_invalid_email (st : AsyncStorage.t) (env : Env)
    (now draw : Z) (email : string) :
  Validation.valid (validateEmail email) = false ->
  let call := startSignup env now draw email st in
  call.1 = SignupStart.mk false (Validation.error (validateEmail email))
             None None
  /\ AsyncStorage.otp_data call.2 = AsyncStorage.otp_data st
  /\ AsyncStorage.parents call.2 = AsyncStorage.parents st
  /\ AsyncStorage.sessions call.2 = AsyncStorage.sessions st.
Proof.
  intros Hbad. cbv zeta.
  assert (Hrun : startSignup env now draw email
                 = (await _ <- analyticsStorage.addEvent now
                                 (Event.mk "auth_signup_started"
                                    (Some (toLowerCase email)) None None None);
                    await _ <- analyticsStorage.addEvent now
                                 (Event.mk "auth_signup_failed"
                                    (Some (toLowerCase email)) None
                                    (Validation.error (validateEmail email))
                                    None);
                    ret (SignupStart.mk false
                           (Validation.error (validateEmail email))
                           None None))).
  { unfold startSignup. now rewrite Hbad. }
  rewrite Hrun. split.
  - unfold bind.
    destruct (analyticsStorage.addEvent _ _ st) as [b1 st1].
    destruct (analyticsStorage.addEvent _ _ st1) as [b2 st2]. reflexivity.
  - repeat split;
      match goal with |- ?f (?m st).2 = ?f st =>
        assert (H : preserves f m) by (unfold_services; preserve);
        apply H
      end.
Qed.

Lemma startSignup_invalid_email_witness :
  (startSignup Scenario.env 7000 1 "someone@mailinator.com"
     Scenario.signedUp).1
  = SignupStart.mk false (Some "Disposable email domains are not allowed")
      None None.
Proof.
  apply (startSignup_invalid_email Scenario.signedUp Scenario.env 7000 1
           "someone@mailinator.com" eq_refl).
Defined.

(** X15: [completeSignup] succeeds exactly when [validateOTP] answers that
    the code is valid; otherwise it returns the error of [validateOTP] with
    neither session nor account and, under any schedule of faults, leaves
    accounts and sessions as they were. *)
Theorem completeSignup_failure (st : AsyncStorage.t) (env : Env) (now : Z)
    (suffixA suffixR email otp : string) :
  let verdict := (validateOTP now email otp st).1 in
  let call := completeSignup env now suffixA suffixR email otp st in
  SignupComplete.success call.1 = Validation.valid verdict
  /\ (if Validation.valid verdict then
        is_Some (SignupComplete.session call.1)
        /\ is_Some (SignupComplete.parent call.1)
      else
        call.1 = SignupComplete.mk false (Validation.error verdict) None None
        /\ AsyncStorage.parents call.2 = AsyncStorage.parents st
        /\ AsyncStorage.sessions call.2 = AsyncStorage.sessions st).
Proof.
  cbv zeta.
  assert (Hp : preserves AsyncStorage.parents (validateOTP now email otp))
    by (unfold_services; preserve).
  assert (Hs : preserves AsyncStorage.sessions (validateOTP now email otp))
    by (unfold_services; preserve).
  specialize (Hp st). specialize (Hs st).
  remember (completeSignup env now suffixA suffixR email otp st) as call
    eqn:Hcall.
  unfold completeSignup, generateTokens, bind in Hcall.
  destruct (validateOTP now email otp st) as [v st1]. cbn [fst snd] in *.
  destruct (Validation.valid v); cbn [negb] in Hcall;
    cbv beta iota zeta in Hcall.
  - destruct (parentStorage.save _ st1) as [b1 st2].
    destruct (sessionStorage.save _ st2) as [b2 st3].
    destruct (analyticsStorage.addEvent _ _ st3) as [b3 st4].
    rewrite Hcall. cbn. repeat split; eexists; reflexivity.
  - assert (Hap : preserves AsyncStorage.parents
                    (analyticsStorage.addEvent now
                       (Event.mk "auth_signup_failed"
                          (Some (toLowerCase email)) None
                          (Validation.error v) None)))
      by (unfold_services; preserve).
    assert (Has : preserves AsyncStorage.sessions
                    (analyticsStorage.addEvent now
                       (Event.mk "auth_signup_failed"
                          (Some (toLowerCase email)) None
                          (Validation.error v) None)))
      by (unfold_services; preserve).
    specialize (Hap st1). specialize (Has st1).
    destruct (analyticsStorage.addEvent _ _ st1) as [b st2].
    rewrite Hcall. cbn [fst snd ret] in *.
    repeat split; congruence.
Qed.

(* ================================================================== *)
(** ** Looking a session up *)

Lemma getSession_healthy (st : AsyncStorage.t) (now : Z) (accessToken : string)
    (session : Session.t) :
  healthy st ->
  truthy_string accessToken = true ->
  JsObject.get accessToken (sessionRecords st) = Some session ->
  now <= Session.expiresAt session ->
  getSession now accessToken st = (Some session, st).
Proof.
  intros Hst Htok Hget Hexp. unfold getSession. rewrite Htok.
  cbn [negb]. cbv beta iota. unfold bind.
  rewrite (sessionStorage_getByToken_healthy st Hst), Hget.
  now rewrite (Zgtb_false _ _ Hexp).
Qed.

Lemma getSession_past_expiry (st : AsyncStorage.t) (now : Z)
    (accessToken : string) (session : Session.t) :
  healthy st ->
  truthy_string accessToken = true ->
  JsObject.get accessToken (sessionRecords st) = Some session ->
  now > Session.expiresAt session ->
  exists st', getSession now accessToken st = (None, st').
Proof.
  intros Hst Htok Hget Hexp. unfold getSession. rewrite Htok.
  cbn [negb]. cbv beta iota. unfold bind.
  rewrite (sessionStorage_getByToken_healthy st Hst), Hget.
  apply Z.gtb_gt in Hexp. rewrite Hexp.
  rewrite (sessionStorage_delete_healthy st Hst). eauto.
Qed.

(** A token carrying the prefix [generateTokens] gives to access tokens is
    not the name of an inherited member. *)
Lemma generated_token_plainKey (now : Z) (suffixA suffixR : string) :
  JsObject.plainKey (generateTokens now suffixA suffixR).1 = true.
Proof. reflexivity. Qed.

(** X16: for a token that is not the name of a member objects inherit,
    [getSession] returns a session exactly when the token is non-empty and
    stored with an expiry instant not yet passed (the expiry instant itself
    still counts), and then it returns the stored row and writes nothing. *)
Theorem getSession_some_iff (st : AsyncStorage.t) (now : Z)
    (accessToken : string) (session : Session.t) :
  healthy st ->
  JsObject.plainKey accessToken = true ->
  ((getSession now accessToken st).1 = Some session
   <-> (accessToken <> ""
        /\ JsObject.get accessToken (sessionRecords st) = Some session
        /\ now <= Session.expiresAt session))
  /\ ((getSession now accessToken st).1 = Some session ->
      (getSession now accessToken st).2 = st).
Proof.
  intros Hst _.
  destruct (truthy_string accessToken) eqn:Htok.
  2: { unfold getSession. rewrite Htok. simpl.
       apply Bool.not_true_iff_false in Htok.
       rewrite truthy_string_spec in Htok.
       split; [split; [discriminate|tauto]|discriminate]. }
  destruct (JsObject.get accessToken (sessionRecords st)) as [s|] eqn:Hget.
  2: { rewrite (getSession_absent st Hst now accessToken Hget). simpl.
       split; [split; [discriminate|]|discriminate].
       intros (_ & H & _). discriminate H. }
  destruct (Z_gt_le_dec now (Session.expiresAt s)) as [Hexp|Hexp].
  - destruct (getSession_past_expiry st now accessToken s Hst Htok Hget Hexp)
      as [st' ->]. simpl.
    split; [split; [discriminate|]|discriminate].
    intros (_ & [= ->] & H). lia.
  - rewrite (getSession_healthy st now accessToken s Hst Htok Hget Hexp).
    simpl. apply truthy_string_spec in Htok.
    split; [|reflexivity].
    split; [intros [= ->]; tauto|].
    intros (_ & [= ->] & _). reflexivity.
Qed.

(** The session issued at instant 2000 is returned at the very instant of
    its expiry. *)
Lemma getSession_some_iff_witness :
  JsObject.plainKey "access_2000_k3j9x0aaa" = true
  /\ (getSession 604802000 "access_2000_k3j9x0aaa" Scenario.signedUp).1
     = Some Scenario.session.
Proof.
  split; [reflexivity|].
  apply (getSession_some_iff Scenario.signedUp 604802000
           "access_2000_k3j9x0aaa" Scenario.session eq_refl eq_refl).
  repeat split; [discriminate|vm_compute; discriminate].
Defined.

(* ================================================================== *)
(** ** Signing out *)

Lemma remove_idempotent {V : Type} (o : JsObject.t V) (k : string) :
  JsObject.remove k (JsObject.remove k o) = JsObject.remove k o.
Proof.
  induction o as [|[k' v'] o IH]; simpl; [reflexivity|].
  destruct (String.eqb k k') eqn:E; [exact IH|].
  simpl. now rewrite E, IH.
Qed.

Lemma signOut_healthy (st : AsyncStorage.t) (accessToken : string) :
  healthy st ->
  truthy_string accessToken = true ->
  signOut accessToken st
  = (true, putSessions (JsObject.remove accessToken (sessionRecords st)) st).
Proof.
  intros Hst Htok. unfold signOut. rewrite Htok. unfold bind.
  now rewrite (sessionStorage_delete_healthy st Hst).
Qed.

(** X17: [signOut] always reports success; afterwards, for a token that is
    not the name of a member objects inherit, [getSession] on the token
    returns absent at every instant, the rows of all other tokens are as
    before, and signing out a second time changes nothing more. *)
Theorem signOut_revokes (st : AsyncStorage.t) (accessToken : string) :
  healthy st ->
  JsObject.plainKey accessToken = true ->
  let st' := (signOut accessToken st).2 in
  (signOut accessToken st).1 = true
  /\ (forall now : Z, getSession now accessToken st' = (None, st'))
  /\ (forall other : string,
        other <> accessToken ->
        JsObject.get other (sessionRecords st')
        = JsObject.get other (sessionRecords st))
  /\ (signOut accessToken st').2 = st'.
Proof.
  intros Hst _. cbv zeta.
  destruct (truthy_string accessToken) eqn:Htok.
  - rewrite (signOut_healthy st accessToken Hst Htok). cbn [fst snd].
    set (st' := putSessions _ st).
    assert (Hst' : healthy st') by exact Hst.
    assert (Hrec : sessionRecords st'
                   = JsObject.remove accessToken (sessionRecords st))
      by reflexivity.
    split; [reflexivity|]. split; [|split].
    + intros now. apply getSession_absent; [exact Hst'|].
      rewrite Hrec. apply get_remove_eq.
    + intros other Hne. rewrite Hrec. apply get_remove_ne. congruence.
    + rewrite (signOut_healthy st' accessToken Hst' Htok). cbn [snd].
      rewrite Hrec, remove_idempotent. subst st'.
      destruct st; reflexivity.
  - unfold signOut. rewrite Htok. cbn [fst snd ret].
    split; [reflexivity|]. split; [|split; reflexivity].
    intros now. unfold getSession. now rewrite Htok.
Qed.

(** The session issued at instant 2000 is signed out: at instant 3000, well
    before its expiry, its token finds nothing. *)
Lemma signOut_revokes_witness :
  (getSession 3000 "access_2000_k3j9x0aaa" Scenario.signedUp).1
  = Some Scenario.session
  /\ getSession 3000 "access_2000_k3j9x0aaa"
       (signOut "access_2000_k3j9x0aaa" Scenario.signedUp).2
     = (None, (signOut "access_2000_k3j9x0aaa" Scenario.signedUp).2).
Proof.
  split; [reflexivity|].
  apply (signOut_revokes Scenario.signedUp "access_2000_k3j9x0aaa" eq_refl
           eq_refl).
Defined.

(* ================================================================== *)
(** ** Refreshing *)

(** X18: [refreshSession] with the empty token, or with a token that no
    stored session carries as its refresh token, returns absent and leaves
    the medium as it was; with a token some stored session carries, it does
    return a session. *)
Theorem refreshSession_unknown_token (st : AsyncStorage.t) (now : Z)
    (suffixA suffixR refreshToken : string) :
  healthy st ->
  let carried :=
    existsb (fun s => String.eqb (Session.refreshToken s) refreshToken)
      (JsObject.values (sessionRecords st)) in
  let call := refreshSession now suffixA suffixR refreshToken st in
  if truthy_string refreshToken && carried
  then is_Some call.1
  else call = (None, st).
Proof.
  intros Hst. cbv zeta.
  remember (refreshSession now suffixA suffixR refreshToken st) as call
    eqn:Hcall.
  unfold refreshSession in Hcall.
  destruct (truthy_string refreshToken); cbn [negb andb] in *;
    cbv beta iota in Hcall; [|exact Hcall].
  unfold bind at 1 in Hcall.
  rewrite (sessionStorage_getAll_healthy st Hst) in Hcall.
  destruct (Array_find _ (JsObject.values (sessionRecords st)))
    as [s|] eqn:Hfind.
  - assert (Hex : existsb
                    (fun s => String.eqb (Session.refreshToken s) refreshToken)
                    (JsObject.values (sessionRecords st)) = true).
    { apply existsb_exists. apply List.find_some in Hfind. eauto. }
    rewrite Hex. unfold rotateRefreshToken, generateTokens in Hcall.
    cbn [fst snd] in Hcall. cbv beta iota zeta in Hcall. unfold bind in Hcall.
    destruct (sessionStorage.delete _ st) as [b1 st1].
    destruct (sessionStorage.save _ st1) as [b2 st2].
    rewrite Hcall. eexists. reflexivity.
  - assert (Hex : existsb
                    (fun s => String.eqb (Session.refreshToken s) refreshToken)
                    (JsObject.values (sessionRecords st)) = false).
    { apply Bool.not_true_iff_false. intros H.
      apply existsb_exists in H as (x & Hin & Hx).
      apply (List.find_none _ _ Hfind) in Hin. congruence. }
    rewrite Hex. exact Hcall.
Qed.

Lemma refreshSession_unknown_token_witness :
  refreshSession 9000 "a" "b" "refresh_2000_unknown" Scenario.signedUp
  = (None, Scenario.signedUp).
Proof.
  apply (refreshSession_unknown_token Scenario.signedUp 9000 "a" "b"
           "refresh_2000_unknown" eq_refl).
Defined.

(* ================================================================== *)
(** ** Rows and their keys *)

Section KeyedObjects.
Context {V : Type}.
Implicit Types (o : JsObject.t V) (k : string) (v : V).

Lemma In_set o k v (row : string * V) :
  In row (JsObject.set k v o) -> row = (k, v) \/ In row o.
Proof.
  induction o as [|[k' v'] o IH]; simpl.
  - intros [<-|[]]. now left.
  - destruct (String.eqb k k'); simpl.
    + intros [<-|H]; [now left|right; now right].
    + intros [<-|H]; [right; now left|].
      destruct (IH H) as [E|E]; [now left|right; now right].
Qed.

Lemma In_remove o k (row : string * V) :
  In row (JsObject.remove k o) -> In row o /\ row.1 <> k.
Proof.
  induction o as [|[k' v'] o IH]; simpl; [tauto|].
  destruct (String.eqb_spec k k') as [->|Hk]; simpl.
  - intros H. destruct (IH H). split; [now right|assumption].
  - intros [<-|H]; [split; [now left|simpl; congruence]|].
    destruct (IH H). split; [now right|assumption].
Qed.

Lemma In_keys_set o k v (x : string) :
  In x (JsObject.keys (JsObject.set k v o)) -> x = k \/ In x (JsObject.keys o).
Proof.
  unfold JsObject.keys. intros H. apply in_map_iff in H as ([k' v'] & <- & H).
  apply In_set in H as [[= -> ->]|H]; [now left|right].
  apply in_map_iff. now exists (k', v').
Qed.

Lemma In_keys_remove o k (x : string) :
  In x (JsObject.keys (JsObject.remove k o)) -> In x (JsObject.keys o).
Proof.
  unfold JsObject.keys. intros H. apply in_map_iff in H as (row & <- & H).
  apply In_remove in H as [H _]. apply in_map_iff. now exists row.
Qed.

Lemma NoDup_keys_set o k v :
  NoDup (JsObject.keys o) -> NoDup (JsObject.keys (JsObject.set k v o)).
Proof.
  induction o as [|[k' v'] o IH]; simpl; intros Hnd.
  - apply NoDup_singleton.
  - apply NoDup_cons in Hnd as [Hk Hnd].
    destruct (String.eqb_spec k k') as [->|Hne]; simpl.
    + now apply NoDup_cons.
    + apply NoDup_cons. split; [|now apply IH].
      intros Hin%list_elem_of_In%In_keys_set.
      destruct Hin as [->|Hin]; [congruence|].
      apply Hk. now apply list_elem_of_In.
Qed.

Lemma NoDup_keys_remove o k :
  NoDup (JsObject.keys o) -> NoDup (JsObject.keys (JsObject.remove k o)).
Proof.
  induction o as [|[k' v'] o IH]; simpl; intros Hnd; [constructor|].
  apply NoDup_cons in Hnd as [Hk Hnd].
  destruct (String.eqb k k'); simpl; [now apply IH|].
  apply NoDup_cons. split; [|now apply IH].
  intros Hin%list_elem_of_In%In_keys_remove.
  apply Hk. now apply list_elem_of_In.
Qed.
End KeyedObjects.

Lemma sessionsKeyed_nil : sessionsKeyed [].
Proof. split; constructor. Qed.

Lemma sessionsKeyed_set (o : JsObject.t Session.t) (session : Session.t) :
  sessionsKeyed o ->
  sessionsKeyed (JsObject.set (Session.accessToken session) session o).
Proof.
  intros [Hrows Hnd]. split; [|now apply NoDup_keys_set].
  apply List.Forall_forall. intros row Hin.
  apply In_set in Hin as [->|Hin]; [reflexivity|].
  rewrite List.Forall_forall in Hrows. now apply Hrows.
Qed.

Lemma sessionsKeyed_remove (o : JsObject.t Session.t) (k : string) :
  sessionsKeyed o -> sessionsKeyed (JsObject.remove k o).
Proof.
  intros [Hrows Hnd]. split; [|now apply NoDup_keys_remove].
  apply List.Forall_forall. intros row Hin.
  apply In_remove in Hin as [Hin _].
  rewrite List.Forall_forall in Hrows. now apply Hrows.
Qed.

Lemma sessionsKeyed_singleton (session : Session.t) :
  sessionsKeyed [(Session.accessToken session, session)].
Proof. apply (sessionsKeyed_set [] session sessionsKeyed_nil). Qed.

Lemma parentsKeyed_empty : parentsKeyed ∅.
Proof. intros k parent H. now rewrite lookup_empty in H. Qed.

Lemma parentsKeyed_insert (m : gmap string Parent.t) (parent : Parent.t) :
  parentsKeyed m ->
  parentsKeyed (<[toLowerCase (Parent.email parent) := parent]> m).
Proof.
  intros Hm k p Hk.
  destruct (decide (toLowerCase (Parent.email parent) = k)) as [<-|Hne].
  - rewrite lookup_insert_eq in Hk. now injection Hk as <-.
  - rewrite lookup_insert_ne in Hk by exact Hne. now apply Hm.
Qed.

Lemma parentsKeyed_delete (m : gmap string Parent.t) (k0 : string) :
  parentsKeyed m -> parentsKeyed (base.delete k0 m).
Proof.
  intros Hm k p Hk. apply lookup_delete_Some in Hk as [_ Hk]. now apply Hm.
Qed.

Create HintDb keyed.

#[local] Hint Resolve sessionsKeyed_nil sessionsKeyed_set sessionsKeyed_remove
  sessionsKeyed_singleton parentsKeyed_empty parentsKeyed_insert parentsKeyed_delete : keyed.

Lemma runStoreOp_keyed (op : StoreOp) (st : AsyncStorage.t) :
  sessionsKeyed (sessionRecords st) /\ parentsKeyed (parentRecords st) ->
  sessionsKeyed (sessionRecords (runStoreOp op st).2)
  /\ parentsKeyed (parentRecords (runStoreOp op st).2).
Proof.
  intros [Hs Hp]. destruct st as [p s o a fs].
  unfold parentRecords, sessionRecords in *. cbn in Hs, Hp.
  destruct op; destruct fs as [|[] [|[] fs]]; cbn; split;
    auto with keyed.
Qed.

Lemma reachable_keyed (st : AsyncStorage.t) :
  reachable st ->
  sessionsKeyed (sessionRecords st) /\ parentsKeyed (parentRecords st).
Proof.
  induction 1 as [fs|st op fs _ IH].
  - split; [apply sessionsKeyed_nil|apply parentsKeyed_empty].
  - apply (runStoreOp_keyed op) in IH. exact IH.
Qed.

Lemma get_In {V : Type} (o : JsObject.t V) (k : string) (v : V) :
  JsObject.get k o = Some v -> In (k, v) o.
Proof.
  induction o as [|[k' v'] o IH]; simpl; [discriminate|].
  destruct (String.eqb_spec k k') as [->|_].
  - intros [= ->]. now left.
  - intros H. right. now apply IH.
Qed.



(* ================================================================== *)
(** ** After a rotation *)

Lemma refreshSession_found (st : AsyncStorage.t) (now : Z)
    (suffixA suffixR refreshToken : string) (session : Session.t) :
  healthy st ->
  truthy_string refreshToken = true ->
  Array_find (fun s => String.eqb (Session.refreshToken s) refreshToken)
    (JsObject.values (sessionRecords st)) = Some session ->
  let rotated :=
    Session.mk (generateTokens now suffixA suffixR).1
      (generateTokens now suffixA suffixR).2
      (Session.parentEmail session) (Session.deviceFingerprint session)
      (Session.createdAt session) (now + SEVEN_DAYS_MS) (Some now) in
  refreshSession now suffixA suffixR refreshToken st
  = (Some rotated,
     putSessions
       (JsObject.set (Session.accessToken rotated) rotated
          (JsObject.remove (Session.accessToken session) (sessionRecords st)))
       st).
Proof.
  intros Hst Htok Hfind rotated. unfold refreshSession. rewrite Htok.
  cbn [negb]. cbv beta iota. unfold bind at 1.
  rewrite (sessionStorage_getAll_healthy st Hst), Hfind.
  unfold rotateRefreshToken, generateTokens. cbn [fst snd].
  cbv beta iota zeta. unfold bind.
  rewrite (sessionStorage_delete_healthy st Hst).
  now rewrite (sessionStorage_save_healthy _ (putSessions_healthy st Hst _)).
Qed.

Lemma refreshSession_not_found (st : AsyncStorage.t) (now : Z)
    (suffixA suffixR refreshToken : string) :
  healthy st ->
  Array_find (fun s => String.eqb (Session.refreshToken s) refreshToken)
    (JsObject.values (sessionRecords st)) = None ->
  refreshSession now suffixA suffixR refreshToken st = (None, st).
Proof.
  intros Hst Hfind. unfold refreshSession.
  destruct (truthy_string refreshToken); cbn [negb]; cbv beta iota;
    [|reflexivity].
  unfold bind at 1.
  now rewrite (sessionStorage_getAll_healthy st Hst), Hfind.
Qed.

Lemma In_values {V : Type} (o : JsObject.t V) (v : V) :
  In v (JsObject.values o) <-> exists k, In (k, v) o.
Proof.
  unfold JsObject.values. rewrite in_map_iff. split.
  - intros ([k v'] & <- & H). now exists k.
  - intros [k H]. now exists (k, v).
Qed.



(* ================================================================== *)
(** ** A whole signup *)

Lemma startSignup_issued (st : AsyncStorage.t) (env : Env) (now draw : Z)
    (email : string) :
  healthy st ->
  Validation.valid (validateEmail email) = true ->
  hasExceededMaxAttempts now (OTPData.attempts (otpRecord st email)) = false ->
  startSignup env now draw email st
  = (SignupStart.mk true None (Some (now + OTP_CONFIG.VALIDITY_MS))
       (if isDev env then Some (generateOTP draw) else None),
     putOtpRecord email
       (OTPData.mk (OTPData.email (otpRecord st email))
          (OTPData.attempts (otpRecord st email))
          (Some (generateOTP draw)) (Some now))
       (write STORAGE_KEYS.ANALYTICS
          (Some (eventLog st
                   ++ [Event.stamp
                         (Event.mk "auth_signup_started"
                            (Some (toLowerCase email)) None None None) now]))
          st)).
Proof.
  intros Hst Hvalid Hcap. unfold startSignup, bind at 1.
  rewrite (analyticsStorage_addEvent_healthy st Hst), Hvalid.
  cbn [negb]. cbv beta iota zeta. fold (eventLog st).
  set (st1 := write STORAGE_KEYS.ANALYTICS _ st).
  assert (Hst1 : healthy st1) by exact Hst.
  unfold bind at 1. rewrite (parentStorage_getByEmail_healthy st1 Hst1).
  unfold bind at 1.
  rewrite (generateOTPForEmail_issued st1 Hst1 now email draw Hcap).
  cbn [OtpResult.success OtpResult.otp OtpResult.expiresAt negb].
  cbv beta iota. rewrite generateOTP_truthy, Bool.andb_true_r.
  reflexivity.
Qed.

Lemma completeSignup_valid (st : AsyncStorage.t) (env : Env) (now : Z)
    (suffixA suffixR email otp : string) (st1 : AsyncStorage.t) :
  healthy st1 ->
  validateOTP now email otp st = (Validation.mk true None, st1) ->
  let parent := Parent.mk (toLowerCase email) now now None None in
  let session :=
    Session.mk (generateTokens now suffixA suffixR).1
      (generateTokens now suffixA suffixR).2 (toLowerCase email)
      (generateDeviceFingerprint env now) now (now + SEVEN_DAYS_MS) None in
  completeSignup env now suffixA suffixR email otp st
  = (SignupComplete.mk true None (Some session) (Some parent),
     write STORAGE_KEYS.ANALYTICS
       (Some (eventLog st1
                ++ [Event.stamp
                      (Event.mk "auth_signup_success"
                         (Some (toLowerCase email)) None None None) now]))
       (putSessions
          (JsObject.set (Session.accessToken session) session
             (sessionRecords st1))
          (putParents (<[toLowerCase email := parent]> (parentRecords st1))
             st1))).
Proof.
  intros H1 Hv parent session.
  unfold completeSignup, bind at 1. rewrite Hv.
  cbn [Validation.valid negb]. cbv beta iota zeta.
  unfold generateTokens. cbv beta iota zeta. unfold bind.
  rewrite (parentStorage_save_healthy st1 H1).
  cbn [Parent.email]. rewrite toLowerCase_idempotent.
  set (st2 := putParents _ st1).
  assert (H2 : healthy st2) by exact H1.
  rewrite (sessionStorage_save_healthy st2 H2).
  set (st3 := putSessions _ st2).
  assert (H3 : healthy st3) by exact H1.
  rewrite (analyticsStorage_addEvent_healthy st3 H3).
  reflexivity.
Qed.



(* ================================================================== *)
(** ** Parent names and profiles *)

Lemma all_chars_cons (p : ascii -> bool) (c : ascii) (s : string) :
  all_chars p (String c s) = p c && all_chars p s.
Proof. reflexivity. Qed.

Lemma append_cons (c : ascii) (s1 s2 : string) :
  String c s1 +:+ s2 = String c (s1 +:+ s2).
Proof. reflexivity. Qed.

Lemma append_nil (s : string) : "" +:+ s = s.
Proof. reflexivity. Qed.

Lemma trimStart_spaces (pre s : string) :
  all_chars is_space pre = true -> trimStart (pre +:+ s) = trimStart s.
Proof.
  induction pre as [|c pre IH]; [reflexivity|].
  intros H. rewrite all_chars_cons in H. apply andb_prop in H as [Hc Hpre].
  rewrite append_cons. cbn [trimStart]. rewrite Hc. now apply IH.
Qed.

Lemma trimStart_blank (s : string) :
  all_chars is_space s = true -> trimStart s = "".
Proof.
  induction s as [|c s IH]; [reflexivity|].
  intros H. rewrite all_chars_cons in H. apply andb_prop in H as [Hc Hs].
  cbn [trimStart]. rewrite Hc. now apply IH.
Qed.

Lemma trimEnd_blank (s : string) :
  all_chars is_space s = true -> trimEnd s = "".
Proof.
  induction s as [|c s IH]; [reflexivity|].
  intros H. rewrite all_chars_cons in H. apply andb_prop in H as [Hc Hs].
  cbn [trimEnd]. now rewrite (IH Hs), Hc.
Qed.

Lemma trimEnd_clean_spaces (core post : string) :
  endsClean core -> all_chars is_space post = true ->
  trimEnd (core +:+ post) = core.
Proof.
  intros Hend Hpost. induction core as [|c r IH].
  - rewrite append_nil. now apply trimEnd_blank.
  - rewrite append_cons. cbn [trimEnd]. destruct r as [|c' r'].
    + rewrite append_nil, (trimEnd_blank post Hpost).
      unfold endsClean in Hend. cbn [lastChar] in Hend. now rewrite Hend.
    + rewrite (IH Hend). now rewrite Bool.andb_false_r.
Qed.

Lemma stripped_trim (s core : string) : stripped s core -> trim s = core.
Proof.
  intros (pre & post & -> & Hpre & Hpost & Hstart & Hend).
  unfold trim. rewrite (trimStart_spaces pre _ Hpre).
  destruct core as [|c r].
  - rewrite append_nil. now rewrite (trimStart_blank post Hpost).
  - cbn [startsClean] in Hstart. rewrite append_cons. cbn [trimStart].
    rewrite Hstart. rewrite <- append_cons.
    exact (trimEnd_clean_spaces (String c r) post Hend Hpost).
Qed.

Lemma trimStart_decompose (s : string) :
  exists pre : string,
    s = pre +:+ trimStart s /\ all_chars is_space pre = true.
Proof.
  induction s as [|c s (pre & Hs & Hpre)]; [now exists ""|].
  cbn [trimStart]. destruct (is_space c) eqn:Hc; [|now exists ""].
  exists (String c pre). split.
  - rewrite append_cons. now rewrite <- Hs.
  - now rewrite all_chars_cons, Hc.
Qed.

Lemma trimEnd_decompose (s : string) :
  exists post : string,
    s = trimEnd s +:+ post /\ all_chars is_space post = true.
Proof.
  induction s as [|c s (post & Hs & Hpost)]; [now exists ""|].
  cbn [trimEnd].
  destruct (is_space c && String.eqb (trimEnd s) "") eqn:E.
  - apply andb_prop in E as [Hc He]. apply String.eqb_eq in He.
    rewrite He, append_nil in Hs. subst post.
    exists (String c s). split; [reflexivity|].
    now rewrite all_chars_cons, Hc.
  - exists post. split; [|exact Hpost].
    rewrite append_cons. now rewrite <- Hs.
Qed.

Lemma trimEnd_endsClean (s : string) : endsClean (trimEnd s).
Proof.
  induction s as [|c s IH]; [exact I|].
  cbn [trimEnd].
  destruct (is_space c && String.eqb (trimEnd s) "") eqn:E; [exact I|].
  unfold endsClean in *. destruct (trimEnd s) as [|c' r']; [|exact IH].
  cbn [lastChar]. cbn [String.eqb] in E. now rewrite Bool.andb_true_r in E.
Qed.

Lemma trim_stripped (s : string) : stripped s (trim s).
Proof.
  destruct (trimStart_decompose s) as (pre & Hs & Hpre).
  destruct (trimEnd_decompose (trimStart s)) as (post & Ht & Hpost).
  exists pre, post. unfold trim.
  split; [now rewrite <- Ht|]. split; [exact Hpre|]. split; [exact Hpost|].
  split; [apply trimEnd_startsClean, trimStart_startsClean|].
  apply trimEnd_endsClean.
Qed.

(** [trim] returns the one string that is its argument without the white
    space around it. *)
Lemma stripped_iff (s core : string) : stripped s core <-> core = trim s.
Proof.
  split; [intros H; symmetry; now apply stripped_trim|].
  intros ->. apply trim_stripped.
Qed.

Lemma validateParentName_inr (name accepted : string) :
  validateParentName name = inr accepted
  <-> (name <> "" /\ accepted = trim name
       /\ 2 <= Z.of_nat (String.length (trim name)) <= 50).
Proof.
  unfold validateParentName, MIN_NAME_LENGTH, MAX_NAME_LENGTH.
  destruct (truthy_string name) eqn:Hname; cbn [negb]; cbv beta iota zeta.
  - apply truthy_string_spec in Hname.
    destruct (Z.ltb_spec (Z.of_nat (String.length (trim name))) 2).
    + split; [discriminate|lia].
    + destruct (Z.gtb_spec (Z.of_nat (String.length (trim name))) 50).
      * split; [discriminate|lia].
      * split; [intros [= <-]; repeat split; auto; lia|].
        intros (_ & -> & _). reflexivity.
  - apply Bool.not_true_iff_false in Hname.
    rewrite truthy_string_spec in Hname.
    split; [discriminate|tauto].
Qed.

(** X22: for an ASCII name, [validateParentName] accepts exactly the names
    that, without the white space around them, have between 2 and 50
    characters, and it returns the name without that white space, which it
    accepts unchanged when given it again; a name it rejects is the empty
    string, answered "Name is required", or has fewer than 2 or more than
    50 characters once the white space around it is taken off. *)
Theorem validateParentName_accepts (name accepted : string) :
  isASCII name = true ->
  (validateParentName name = inr accepted
   <-> (stripped name accepted
        /\ 2 <= Z.of_nat (String.length accepted) <= 50))
  /\ (validateParentName name = inr accepted ->
      validateParentName accepted = inr accepted)
  /\ (forall error core : string,
        validateParentName name = inl error ->
        stripped name core ->
        error
        = (if String.eqb name "" then "Name is required"
           else if Z.of_nat (String.length core) <? 2
                then "Name must be at least 2 characters"
                else "Name must be 50 characters or less")
        /\ ~ 2 <= Z.of_nat (String.length core) <= 50).
Proof.
  intros _.
  assert (Hblank : forall s : string,
             2 <= Z.of_nat (String.length (trim s)) -> s <> "").
  { intros s Hlen ->. cbn in Hlen. lia. }
  split; [|split].
  - rewrite validateParentName_inr, stripped_iff. split.
    + intros (_ & -> & Hlen). split; [reflexivity|exact Hlen].
    + intros [-> Hlen]. split; [|split; [reflexivity|exact Hlen]].
      apply Hblank. lia.
  - rewrite !validateParentName_inr. intros (_ & -> & Hlen).
    rewrite trim_idempotent.
    split; [|split; [reflexivity|exact Hlen]].
    intros Hempty. rewrite Hempty in Hlen. cbn in Hlen. lia.
  - intros error core Hv Hcore. apply stripped_iff in Hcore as ->.
    unfold validateParentName, MIN_NAME_LENGTH, MAX_NAME_LENGTH in Hv.
    unfold truthy_string in Hv.
    destruct (String.eqb_spec name "") as [->|Hne];
      cbn [negb] in Hv; cbv beta iota zeta in Hv.
    + injection Hv as <-. split; [reflexivity|]. cbn. lia.
    + destruct (Z.ltb_spec (Z.of_nat (String.length (trim name))) 2).
      * injection Hv as <-. split; [reflexivity|lia].
      * destruct (Z.gtb_spec (Z.of_nat (String.length (trim name))) 50);
          [|discriminate Hv].
        injection Hv as <-. split; [reflexivity|lia].
Qed.

(** The name "  Ann " is accepted as "Ann"; the name "A" is rejected as too
    short. *)
Lemma validateParentName_accepts_witness :
  validateParentName "  Ann " = inr "Ann"
  /\ validateParentName "A" = inl "Name must be at least 2 characters".
Proof.
  split.
  - apply (proj2 (proj1 (validateParentName_accepts "  Ann " "Ann" eq_refl))).
    split; [|cbn; lia].
    exists "  ", " ". repeat split; reflexivity.
  - destruct (validateParentName "A") as [error|accepted] eqn:Hv.
    + destruct (validateParentName_accepts "A" "A" eq_refl)
        as (_ & _ & Herr).
      destruct (Herr error "A" Hv) as [-> _]; [|reflexivity].
      exists "", "". repeat split; reflexivity.
    + discriminate Hv.
Defined.

Lemma checked_profile (profile : ProfileData.t) :
  match ProfileData.name profile with
  | None => True
  | Some name => exists trimmed, validateParentName name = inr trimmed
  end ->
  exists checked : ProfileData.t,
    match ProfileData.name profile with
    | None => inr profile
    | Some name =>
        match validateParentName name with
        | inl error => inl error
        | inr name =>
            inr (ProfileData.mk (Some name)
                   (ProfileData.skippedProfileSetup profile))
        end
    end = inr checked
    /\ ProfileData.name checked = trim <$> ProfileData.name profile
    /\ ProfileData.skippedProfileSetup checked
       = ProfileData.skippedProfileSetup profile.
Proof.
  destruct profile as [[name|] flag]; simpl.
  - intros [trimmed Hv]. rewrite Hv.
    apply validateParentName_inr in Hv as (_ & -> & _). eauto.
  - intros _. eauto.
Qed.

(** X23: with ASCII names, [updateParentProfile] fails without writing: for
    an account that has no row, a profile that passes validation is answered
    "Parent not found" and the medium is as before; and a name
    [validateParentName] rejects is answered with the validation error
    before any storage call, whatever the account. *)
Theorem updateParentProfile_errors (st : AsyncStorage.t) (now : Z)
    (email name : string) (flag : option bool) (profile : ProfileData.t) :
  healthy st ->
  asciiProfile profile ->
  isASCII name = true ->
  (parentRecords st !! toLowerCase email = None ->
   match ProfileData.name profile with
   | None => True
   | Some name => exists trimmed, validateParentName name = inr trimmed
   end ->
   updateParentProfile now email profile st = (inl "Parent not found", st))
  /\ (forall error : string,
        validateParentName name = inl error ->
        updateParentProfile now email (ProfileData.mk (Some name) flag) st
        = (inl error, st)).
Proof.
  intros Hst _ _. split.
  - intros Hrow Hname.
    destruct (checked_profile profile Hname) as (checked & Hc & _ & _).
    unfold updateParentProfile. rewrite Hc. unfold bind.
    now rewrite (parentStorage_getByEmail_healthy st Hst), Hrow.
  - intros error Hv.
    unfold updateParentProfile. cbn [ProfileData.name]. now rewrite Hv.
Qed.

(** An account that does not exist is not found; for the account that does,
    the name "A" is refused and nothing is written. *)
Lemma updateParentProfile_errors_witness :
  updateParentProfile 3000 "nobody@example.com"
    (ProfileData.mk (Some "Ann") None) Scenario.signedUp
  = (inl "Parent not found", Scenario.signedUp)
  /\ updateParentProfile 3000 Scenario.user
       (ProfileData.mk (Some "A") None) Scenario.signedUp
     = (inl "Name must be at least 2 characters", Scenario.signedUp).
Proof.
  split.
  - apply (updateParentProfile_errors Scenario.signedUp 3000
             "nobody@example.com" "A" None
             (ProfileData.mk (Some "Ann") None) eq_refl eq_refl eq_refl).
    + reflexivity.
    + simpl. eexists. reflexivity.
  - apply (updateParentProfile_errors Scenario.signedUp 3000
             Scenario.user "A" None
             (ProfileData.mk (Some "Ann") None) eq_refl eq_refl eq_refl).
    reflexivity.
Defined.

(** X24: for an account that has a row, in a medium reached through the
    record stores, [updateParentProfile] with a profile whose name, if any,
    is ASCII and passes validation returns the merged row: e-mail and
    creation instant kept, the update instant set to the instant of the
    call, the name replaced by the trimmed new name when one is given and
    kept otherwise, likewise the skipped-setup flag; [getParent] then
    returns that row, and when a name was given the profile counts as
    complete. *)
Theorem updateParentProfile_merges (st : AsyncStorage.t) (now : Z)
    (email : string) (profile : ProfileData.t) (existing : Parent.t) :
  reachable st ->
  healthy st ->
  parentRecords st !! toLowerCase email = Some existing ->
  asciiProfile profile ->
  match ProfileData.name profile with
  | None => True
  | Some name => exists trimmed, validateParentName name = inr trimmed
  end ->
  let call := updateParentProfile now email profile st in
  let updated :=
    Parent.mk (Parent.email existing) (Parent.createdAt existing) now
      (spread (Parent.name existing) (trim <$> ProfileData.name profile))
      (spread (Parent.skippedProfileSetup existing)
         (ProfileData.skippedProfileSetup profile)) in
  call.1 = inr updated
  /\ (getParent email call.2).1 = Some updated
  /\ (forall other : string,
        toLowerCase other <> toLowerCase email ->
        (getParent other call.2).1 = (getParent other st).1)
  /\ match ProfileData.name profile with
     | Some _ => isParentProfileComplete (Some updated) = true
     | None =>
         isParentProfileComplete (Some updated)
         = isParentProfileComplete (Some existing)
     end.
Proof.
  intros Hreach Hst Hrow _ Hname. cbv zeta.
  destruct (reachable_keyed st Hreach) as [_ Hkeyed].
  specialize (Hkeyed _ _ Hrow).
  destruct (checked_profile profile Hname) as (checked & Hc & Hcn & Hcf).
  assert (Hcall : updateParentProfile now email profile st
                  = (inr (Parent.mk (Parent.email existing)
                            (Parent.createdAt existing) now
                            (spread (Parent.name existing)
                               (ProfileData.name checked))
                            (spread (Parent.skippedProfileSetup existing)
                               (ProfileData.skippedProfileSetup checked))),
                     write STORAGE_KEYS.ANALYTICS
                       (Some (eventLog st
                                ++ [Event.stamp
                                      (Event.mk "parent_profile_updated" None
                                         (Some (toLowerCase email)) None None)
                                      now]))
                       (putParents
                          (<[toLowerCase email :=
                               Parent.mk (Parent.email existing)
                                 (Parent.createdAt existing) now
                                 (spread (Parent.name existing)
                                    (ProfileData.name checked))
                                 (spread (Parent.skippedProfileSetup existing)
                                    (ProfileData.skippedProfileSetup checked))]>
                             (parentRecords st)) st))).
  { unfold updateParentProfile. rewrite Hc. unfold bind at 1.
    rewrite (parentStorage_getByEmail_healthy st Hst), Hrow.
    unfold bind at 1. rewrite (parentStorage_save_healthy st Hst).
    cbn [Parent.email]. rewrite Hkeyed.
    set (st1 := putParents _ st).
    assert (Hst1 : healthy st1) by exact Hst.
    unfold trackEvent, bind.
    now rewrite (analyticsStorage_addEvent_healthy st1 Hst1). }
  rewrite Hcall, Hcn, Hcf. cbn [fst snd].
  set (updated := Parent.mk _ _ now _ _).
  set (st2 := write STORAGE_KEYS.ANALYTICS _ _).
  assert (Hst2 : healthy st2) by exact Hst.
  assert (Hrec : parentRecords st2
                 = <[toLowerCase email := updated]> (parentRecords st))
    by reflexivity.
  unfold getParent.
  split; [reflexivity|]. split; [|split].
  - rewrite (parentStorage_getByEmail_healthy st2 Hst2). cbn [fst].
    rewrite Hrec. apply lookup_insert_eq.
  - intros other Hne.
    rewrite (parentStorage_getByEmail_healthy st2 Hst2),
      (parentStorage_getByEmail_healthy st Hst). cbn [fst].
    rewrite Hrec. apply lookup_insert_ne. congruence.
  - destruct (ProfileData.name profile) as [name|] eqn:Hn.
    + destruct Hname as [trimmed Hv].
      apply validateParentName_inr in Hv as (Hne & -> & Hlen).
      unfold updated. cbn. rewrite trim_idempotent.
      apply andb_true_intro. split.
      * apply truthy_string_spec. intros Hempty. rewrite Hempty in Hlen.
        simpl in Hlen. lia.
      * unfold MIN_NAME_LENGTH. apply Z.geb_le. lia.
    + unfold updated. cbn. reflexivity.
Qed.

Lemma updateParentProfile_merges_witness :
  (getParent Scenario.user
     (updateParentProfile 3000 Scenario.user
        (ProfileData.mk (Some "  Ann ") None)
        (AsyncStorage.with_faults []
           (runStoreOp
              (ParentSave (Parent.mk Scenario.user 2000 2000 None None))
              (AsyncStorage.with_faults [] AsyncStorage.empty)).2)).2).1
  = Some (Parent.mk Scenario.user 2000 3000 (Some "Ann") None).
Proof.
  apply (updateParentProfile_merges _ 3000 Scenario.user
           (ProfileData.mk (Some "  Ann ") None)
           (Parent.mk Scenario.user 2000 2000 None None)
           (reachable_step _
              (ParentSave (Parent.mk Scenario.user 2000 2000 None None)) []
              (reachable_empty []))
           eq_refl eq_refl eq_refl).
  simpl. eexists. reflexivity.
Defined.


(* ================================================================== *)
(** ** The event log *)

Lemma getEventsByName_healthy (st : AsyncStorage.t) (eventName : string) :
  healthy st ->
  getEventsByName eventName st
  = (List.filter (fun event => String.eqb (Event.event event) eventName)
       (eventLog st), st).
Proof.
  intros Hst. unfold getEventsByName, analyticsStorage.getAll, bind, ret.
  now rewrite (getItem_healthy st Hst).
Qed.

Lemma startSignup_throttled (st : AsyncStorage.t) (env : Env) (now draw : Z)
    (email : string) :
  healthy st ->
  Validation.valid (validateEmail email) = true ->
  hasExceededMaxAttempts now (OTPData.attempts (otpRecord st email)) = true ->
  startSignup env now draw email st
  = (SignupStart.mk false
       (Some "Too many attempts. Please try again later.") None None,
     write STORAGE_KEYS.ANALYTICS
       (Some ((eventLog st
                 ++ [Event.stamp
                       (Event.mk "auth_signup_started"
                          (Some (toLowerCase email)) None None None) now])
                ++ [Event.stamp
                      (Event.mk "auth_signup_failed"
                         (Some (toLowerCase email)) None
                         (Some "Too many attempts. Please try again later.")
                         None) now]))
       (write STORAGE_KEYS.ANALYTICS
          (Some (eventLog st
                   ++ [Event.stamp
                         (Event.mk "auth_signup_started"
                            (Some (toLowerCase email)) None None None) now]))
          st)).
Proof.
  intros Hst Hvalid Hcap. unfold startSignup, bind at 1.
  rewrite (analyticsStorage_addEvent_healthy st Hst), Hvalid.
  cbn [negb]. cbv beta iota zeta. fold (eventLog st).
  set (st1 := write STORAGE_KEYS.ANALYTICS _ st).
  assert (Hst1 : healthy st1) by exact Hst.
  unfold bind at 1. rewrite (parentStorage_getByEmail_healthy st1 Hst1).
  unfold bind at 1.
  rewrite (generateOTPForEmail_throttled st1 Hst1 now email draw Hcap).
  cbn [OtpResult.success OtpResult.error negb]. cbv beta iota.
  unfold bind. rewrite (analyticsStorage_addEvent_healthy st1 Hst1).
  reflexivity.
Qed.

Lemma startSignup_rejected (st : AsyncStorage.t) (env : Env) (now draw : Z)
    (email : string) :
  healthy st ->
  Validation.valid (validateEmail email) = false ->
  startSignup env now draw email st
  = (SignupStart.mk false (Validation.error (validateEmail email)) None None,
     write STORAGE_KEYS.ANALYTICS
       (Some ((eventLog st
                 ++ [Event.stamp
                       (Event.mk "auth_signup_started"
                          (Some (toLowerCase email)) None None None) now])
                ++ [Event.stamp
                      (Event.mk "auth_signup_failed"
                         (Some (toLowerCase email)) None
                         (Validation.error (validateEmail email)) None) now]))
       (write STORAGE_KEYS.ANALYTICS
          (Some (eventLog st
                   ++ [Event.stamp
                         (Event.mk "auth_signup_started"
                            (Some (toLowerCase email)) None None None) now]))
          st)).
Proof.
  intros Hst Hvalid. unfold startSignup, bind at 1.
  rewrite (analyticsStorage_addEvent_healthy st Hst), Hvalid.
  cbn [negb]. cbv beta iota zeta. fold (eventLog st).
  set (st1 := write STORAGE_KEYS.ANALYTICS _ st).
  assert (Hst1 : healthy st1) by exact Hst.
  unfold bind. rewrite (analyticsStorage_addEvent_healthy st1 Hst1).
  reflexivity.
Qed.

(** X25: [startSignup] only ever appends to the event log: it adds one
    "auth_signup_started" event carrying the lower-case address and the
    instant of the call and, exactly when it fails, one "auth_signup_failed"
    event whose reason is the error it returns; the events already logged
    stay in place, and [getEventsByName] finds one more started event. *)
Theorem startSignup_event_log (st : AsyncStorage.t) (env : Env) (now draw : Z)
    (email : string) :
  healthy st ->
  let call := startSignup env now draw email st in
  let started :=
    Event.mk "auth_signup_started" (Some (toLowerCase email)) None None
      (Some now) in
  let failed :=
    Event.mk "auth_signup_failed" (Some (toLowerCase email)) None
      (SignupStart.error call.1) (Some now) in
  eventLog call.2
  = eventLog st ++ started :: (if SignupStart.success call.1 then []
                               else [failed])
  /\ (getEventsByName "auth_signup_started" call.2).1
     = (getEventsByName "auth_signup_started" st).1 ++ [started].
Proof.
  intros Hst. cbv zeta.
  assert (Hcall :
    eventLog (startSignup env now draw email st).2
    = eventLog st
        ++ Event.mk "auth_signup_started" (Some (toLowerCase email)) None None
             (Some now)
        :: (if SignupStart.success (startSignup env now draw email st).1
            then []
            else [Event.mk "auth_signup_failed" (Some (toLowerCase email))
                    None (SignupStart.error (startSignup env now draw email st).1)
                    (Some now)])
    /\ healthy (startSignup env now draw email st).2).
  { destruct (Validation.valid (validateEmail email)) eqn:Hvalid.
    - destruct (hasExceededMaxAttempts now
                  (OTPData.attempts (otpRecord st email))) eqn:Hcap.
      + rewrite (startSignup_throttled st env now draw email Hst Hvalid Hcap).
        split; [|exact Hst]. unfold eventLog at 1. cbn.
        now rewrite <- app_assoc.
      + rewrite (startSignup_issued st env now draw email Hst Hvalid Hcap).
        split; [|exact Hst]. reflexivity.
    - rewrite (startSignup_rejected st env now draw email Hst Hvalid).
      split; [|exact Hst]. unfold eventLog at 1. cbn.
      now rewrite <- app_assoc. }
  destruct Hcall as [Hlog Hst'].
  split; [exact Hlog|].
  rewrite (getEventsByName_healthy _ _ Hst'), (getEventsByName_healthy _ _ Hst).
  cbn [fst]. rewrite Hlog, List.filter_app. f_equal.
  destruct (SignupStart.success _); reflexivity.
Qed.

Lemma startSignup_event_log_witness :
  length (eventLog (startSignup Scenario.env 7000 1 "someone@mailinator.com"
                      Scenario.signedUp).2)
  = (length (eventLog Scenario.signedUp) + 2)%nat.
Proof.
  destruct (startSignup_event_log Scenario.signedUp Scenario.env 7000 1
              "someone@mailinator.com" eq_refl) as [H _].
  rewrite H, length_app. reflexivity.
Defined.

(* ================================================================== *)
(** ** The end of a throttle *)

Lemma recentCount_all_old (now : Z) (attempts : list Attempt.t) :
  Forall (fun a => Attempt.timestamp a + OTP_CONFIG.ATTEMPT_WINDOW_MS <= now)
    attempts ->
  recentCount now attempts = 0.
Proof.
  unfold recentCount, cleanOldAttempts.
  induction 1 as [|a l Ha _ IH]; simpl; [reflexivity|].
  destruct (Z.ltb_spec (now - Attempt.timestamp a)
              OTP_CONFIG.ATTEMPT_WINDOW_MS); [lia|exact IH].
Qed.

(** X26: a throttle ends by itself: once every logged attempt of an e-mail
    is at least 60 minutes old (an attempt exactly 60 minutes old no longer
    counts), [getRemainingAttempts] is back to 5 and [generateOTPForEmail]
    issues a code again. *)
Theorem throttle_lifts (st : AsyncStorage.t) (now draw : Z) (email : string) :
  healthy st ->
  Forall (fun a => Attempt.timestamp a + OTP_CONFIG.ATTEMPT_WINDOW_MS <= now)
    (OTPData.attempts (otpRecord st email)) ->
  (getRemainingAttempts now email st).1 = 5
  /\ OtpResult.success (generateOTPForEmail now draw email st).1 = true
  /\ OtpResult.otp (generateOTPForEmail now draw email st).1
     = Some (generateOTP draw).
Proof.
  intros Hst Hold. apply recentCount_all_old in Hold.
  rewrite (getRemainingAttempts_healthy st now email Hst), Hold.
  rewrite (generateOTPForEmail_issued st Hst now email draw).
  - repeat split.
  - apply hasExceededMaxAttempts_false. lia.
Qed.

Lemma throttle_lifts_witness :
  (getRemainingAttempts 3602004 Scenario.user Scenario.afterFiveWrong).1 = 5
  /\ (getRemainingAttempts 3602003 Scenario.user Scenario.afterFiveWrong).1
     = 4.
Proof.
  split; [|reflexivity].
  apply (throttle_lifts Scenario.afterFiveWrong 3602004 7 Scenario.user
           eq_refl).
  change (OTPData.attempts (otpRecord Scenario.afterFiveWrong Scenario.user))
    with (map (fun t => Attempt.mk "000000" t false (Some "invalid"))
            [2000; 2001; 2002; 2003; 2004]).
  repeat constructor; discriminate.
Defined.

(* ================================================================== *)
(** ** The session store *)

Lemma sessionStorage_getByDeviceFingerprint_healthy (st : AsyncStorage.t)
    (fingerprint : string) :
  healthy st ->
  sessionStorage.getByDeviceFingerprint fingerprint st
  = (Array_find
       (fun s => String.eqb (Session.deviceFingerprint s) fingerprint)
       (JsObject.values (sessionRecords st)), st).
Proof.
  intros Hst. unfold sessionStorage.getByDeviceFingerprint, bind, ret.
  now rewrite (sessionStorage_getAll_healthy st Hst).
Qed.


